(** * LinguaBot session controller: a shallow embedding of [App.tsx] and
    [geminiService.ts]

    The development follows the two source files:

    - [JsString]: JavaScript strings as sequences of UTF-16 code units, with
      [String.prototype.trim];
    - [Json]: the values [JSON.parse] produces, and the parser itself;
    - [GeminiService]: [getGeminiChatResponse] and [evaluateSpeaking], over
      the remote [generateContent] call taken as a black box;
    - [Controller]: the React component state of [App] and its handlers
      [startListening], [stopListeningAndSend] and [handleEvaluate], each cut
      at its [await] into the part that runs on the click and the part that
      runs when the awaited promise settles;
    - [Session]: the event loop that interleaves clicks, settled promises
      and speech-recognition callbacks, with the guards the rendered buttons
      impose;
    - [Properties] and [Scenario]: the predicates the theorems use, and
      concrete runs of the event loop;
    - [Speech]: [speakText] and its choice of a voice;
    - [Flight]: counting the calls that have not settled, and further
      predicates on sessions.

    The theorems follow the definitions. *)

From Stdlib Require Import List Bool NArith ZArith String Ascii Lia QArith.
Import ListNotations.

Set Warnings "-register-all".

(* ===================================================================== *)
(** * JavaScript strings                                                 *)
(* ===================================================================== *)

Module JsString.

(** A JavaScript string is a finite sequence of 16-bit code units. *)
Definition char16 := N.
Definition jsstring := list char16.

(** ASCII literals of the source text. *)
Definition str (s : string) : jsstring :=
  map N_of_ascii (list_ascii_of_string s).

Definition eqb (a b : jsstring) : bool :=
  if list_eq_dec N.eq_dec a b then true else false.

(** [!s] on a string: only the empty string is falsy. *)
Definition falsy (s : jsstring) : bool :=
  match s with [] => true | _ :: _ => false end.

(** ECMAScript WhiteSpace and LineTerminator code points, the set
    [String.prototype.trim] strips: TAB, LF, VT, FF, CR, SP, NBSP, the
    Unicode space separators and ZWNBSP. All lie in the basic plane, so
    each is one code unit. *)
Definition isWhiteSpace (c : char16) : bool :=
  ((9 <=? c) && (c <=? 13)           (* TAB LF VT FF CR *)
   || (c =? 32)                       (* SP *)
   || (c =? 160)                      (* NBSP *)
   || (c =? 5760)                     (* U+1680 *)
   || ((8192 <=? c) && (c <=? 8202))  (* U+2000 .. U+200A *)
   || (c =? 8232) || (c =? 8233)      (* LS, PS *)
   || (c =? 8239)                     (* U+202F *)
   || (c =? 8287)                     (* U+205F *)
   || (c =? 12288)                    (* U+3000 *)
   || (c =? 65279))%N.                (* U+FEFF *)

Fixpoint trimStart (s : jsstring) : jsstring :=
  match s with
  | [] => []
  | c :: r => if isWhiteSpace c then trimStart r else s
  end.

Definition trimEnd (s : jsstring) : jsstring := rev (trimStart (rev s)).

(** [String.prototype.trim]. *)
Definition trim (s : jsstring) : jsstring := trimEnd (trimStart s).

(** The leading white space [trimStart] drops. *)
Fixpoint leadingSpace (s : jsstring) : jsstring :=
  match s with
  | [] => []
  | c :: r => if isWhiteSpace c then c :: leadingSpace r else []
  end.

Definition whitespaceOnly (s : jsstring) : bool := forallb isWhiteSpace s.

(** No white space at either end. *)
Definition tight (s : jsstring) : Prop :=
  (forall c r, s = c :: r -> isWhiteSpace c = false) /\
  (forall c r, s = r ++ [c] -> isWhiteSpace c = false).

End JsString.

(* ===================================================================== *)
(** * JSON values and [JSON.parse]                                       *)
(* ===================================================================== *)

Module Json.
Import JsString.

Local Open Scope N_scope.

(** What [JSON.parse] returns. A number keeps the characters of its
    literal: no handler computes with a parsed number, the band score is
    only stored and displayed. An object keeps its members in source
    order. *)
Inductive json : Type :=
| JNull
| JBool (b : bool)
| JNumber (literal : jsstring)
| JString (s : jsstring)
| JArray (elements : list json)
| JObject (members : list (jsstring * json)).

(** [null], the value of an absent evaluation. *)
Definition null : json := JNull.

Fixpoint lookup (k : jsstring) (ms : list (jsstring * json)) : option json :=
  match ms with
  | [] => None
  | (k', v) :: r =>
      match lookup k r with
      | Some w => Some w            (* a later duplicate key wins *)
      | None => if eqb k k' then Some v else None
      end
  end.

(** Property access [v.k] on a parsed value; [None] is [undefined]. *)
Definition get (k : jsstring) (v : json) : option json :=
  match v with
  | JObject ms => lookup k ms
  | _ => None
  end.

Definition isDigit (c : char16) : bool := (48 <=? c) && (c <=? 57).

(** ** The number a literal denotes, as far as zero goes

    [JSON.parse] turns a number literal into the nearest double, ties to
    even. A literal is written [digits * 10 ^ scale]: the digits of its
    integer and fraction parts, and its exponent less the length of the
    fraction. The nearest double is zero when the digits are all zero, or
    when the value is at most [2 ^ -1075], half the least positive
    double. *)

(** The decimal digits of [s] as a number; other characters are passed
    over. *)
Definition digitsValue (s : jsstring) : N :=
  fold_left (fun acc c => if isDigit c then acc * 10 + (c - 48) else acc) s 0.

Definition isExponentMark (c : char16) : bool := (c =? 101) || (c =? 69).

Fixpoint beforeExponent (s : jsstring) : jsstring :=
  match s with
  | [] => []
  | c :: r => if isExponentMark c then [] else c :: beforeExponent r
  end.

Fixpoint afterExponent (s : jsstring) : jsstring :=
  match s with
  | [] => []
  | c :: r => if isExponentMark c then r else afterExponent r
  end.

Fixpoint afterPoint (s : jsstring) : jsstring :=
  match s with
  | [] => []
  | c :: r => if c =? 46 then r else afterPoint r
  end.

(** The power of ten the digits of the literal are multiplied by. *)
Definition scaleOf (l : jsstring) : Z :=
  let exponent := afterExponent l in
  let negative := existsb (fun c => c =? 45) exponent in
  let e := Z.of_N (digitsValue exponent) in
  ((if negative then - e else e)
   - Z.of_nat (List.length (afterPoint (beforeExponent l))))%Z.

(** Whether the double denoted by the literal [l] is zero. *)
Definition zeroLiteral (l : jsstring) : bool :=
  let m := digitsValue (beforeExponent l) in
  let scale := scaleOf l in
  (m =? 0)
  || ((scale <? 0)%Z && (m * 2 ^ 1075 <=? 10 ^ Z.to_N (- scale))).

(** Truthiness of a parsed value, as [evaluation && ...] tests it: [null],
    [false], the empty string and a zero number are falsy. *)
Definition truthy (v : json) : bool :=
  match v with
  | JNull => false
  | JBool b => b
  | JNumber l => negb (zeroLiteral l)
  | JString s => negb (falsy s)
  | JArray _ | JObject _ => true
  end.

(** ** The parser *)

(** JSON white space: TAB, LF, CR, SP. *)
Definition isJsonSpace (c : char16) : bool :=
  (c =? 9) || (c =? 10) || (c =? 13) || (c =? 32).

Fixpoint skip_ws (s : jsstring) : jsstring :=
  match s with
  | c :: r => if isJsonSpace c then skip_ws r else s
  | [] => []
  end.

Fixpoint strip_prefix (p s : jsstring) : option jsstring :=
  match p, s with
  | [], _ => Some s
  | a :: p', b :: s' => if a =? b then strip_prefix p' s' else None
  | _ :: _, [] => None
  end.

Definition hexDigit (c : char16) : option N :=
  if isDigit c then Some (c - 48)
  else if (97 <=? c) && (c <=? 102) then Some (c - 87)
  else if (65 <=? c) && (c <=? 70) then Some (c - 55)
  else None.

Definition hex4 (a b c d : char16) : option char16 :=
  match hexDigit a, hexDigit b, hexDigit c, hexDigit d with
  | Some x, Some y, Some z, Some w => Some (((x * 16 + y) * 16 + z) * 16 + w)
  | _, _, _, _ => None
  end.

(** The single-character escapes: quote, backslash, slash, b, f, n, r, t. *)
Definition unescape (c : char16) : option char16 :=
  if c =? 34 then Some 34
  else if c =? 92 then Some 92
  else if c =? 47 then Some 47
  else if c =? 98 then Some 8
  else if c =? 102 then Some 12
  else if c =? 110 then Some 10
  else if c =? 114 then Some 13
  else if c =? 116 then Some 9
  else None.

(** The characters of a string literal after its opening quote, up to the
    closing quote; [acc] holds the characters read so far, last first. *)
Fixpoint parse_chars (s acc : jsstring) : option (jsstring * jsstring) :=
  match s with
  | [] => None
  | c :: r =>
      if c =? 34 then Some (rev acc, r)
      else if c =? 92 then
        match r with
        | [] => None
        | e :: r1 =>
            if e =? 117 then
              match r1 with
              | h1 :: h2 :: h3 :: h4 :: r2 =>
                  match hex4 h1 h2 h3 h4 with
                  | Some u => parse_chars r2 (u :: acc)
                  | None => None
                  end
              | _ => None
              end
            else
              match unescape e with
              | Some u => parse_chars r1 (u :: acc)
              | None => None
              end
        end
      else if c <? 32 then None
      else parse_chars r (c :: acc)
  end.

Fixpoint digits (s : jsstring) : jsstring * jsstring :=
  match s with
  | c :: r =>
      if isDigit c then let (d, t) := digits r in (c :: d, t) else ([], s)
  | [] => ([], [])
  end.

(** The parts of a number literal: optional minus, integer part without
    leading zero, optional fraction, optional exponent. Each returns the
    characters it takes and the rest of the text. *)
Definition take_sign (s : jsstring) : jsstring * jsstring :=
  match s with
  | c :: r => if c =? 45 then ([c], r) else ([], s)
  | [] => ([], s)
  end.

Definition take_fraction (s : jsstring) : option (jsstring * jsstring) :=
  match s with
  | c :: r =>
      if c =? 46 then
        let (f, t) := digits r in
        if falsy f then None else Some (c :: f, t)
      else Some ([], s)
  | [] => Some ([], s)
  end.

Definition take_exponent (s : jsstring) : option (jsstring * jsstring) :=
  match s with
  | c :: r =>
      if (c =? 101) || (c =? 69) then
        let (sg, r1) :=
          match r with
          | g :: r' => if (g =? 43) || (g =? 45) then ([g], r') else ([], r)
          | [] => ([], r)
          end in
        let (e, t) := digits r1 in
        if falsy e then None else Some (c :: sg ++ e, t)
      else Some ([], s)
  | [] => Some ([], s)
  end.

Definition parse_number (s : jsstring) : option (jsstring * jsstring) :=
  let (sign, s1) := take_sign s in
  let (int, s2) := digits s1 in
  match int with
  | [] => None
  | d :: ds =>
      if (d =? 48) && negb (falsy ds) then None
      else
        match take_fraction s2 with
        | None => None
        | Some (f, s3) =>
            match take_exponent s3 with
            | None => None
            | Some (e, t) => Some (sign ++ int ++ f ++ e, t)
            end
        end
  end.

(** Recursive descent on the text; [fuel] bounds the number of nested
    calls. *)
Fixpoint parse_value (fuel : nat) (s : jsstring) : option (json * jsstring) :=
  match fuel with
  | O => None
  | S fuel' =>
      match skip_ws s with
      | [] => None
      | c :: r =>
          if c =? 123 then                       (* object *)
            match skip_ws r with
            | c' :: r' =>
                if c' =? 125 then Some (JObject [], r')
                else parse_members fuel' r []
            | [] => None
            end
          else if c =? 91 then                   (* array *)
            match skip_ws r with
            | c' :: r' =>
                if c' =? 93 then Some (JArray [], r')
                else parse_elements fuel' r []
            | [] => None
            end
          else if c =? 34 then                   (* string *)
            match parse_chars r [] with
            | Some (x, t) => Some (JString x, t)
            | None => None
            end
          else
            match strip_prefix (str "true") (c :: r),
                  strip_prefix (str "false") (c :: r),
                  strip_prefix (str "null") (c :: r) with
            | Some t, _, _ => Some (JBool true, t)
            | _, Some t, _ => Some (JBool false, t)
            | _, _, Some t => Some (JNull, t)
            | None, None, None =>
                match parse_number (c :: r) with
                | Some (l, t) => Some (JNumber l, t)
                | None => None
                end
            end
      end
  end
with parse_elements (fuel : nat) (s : jsstring) (acc : list json)
  : option (json * jsstring) :=
  match fuel with
  | O => None
  | S fuel' =>
      match parse_value fuel' s with
      | None => None
      | Some (v, r) =>
          match skip_ws r with
          | c :: r' =>
              if c =? 44 then parse_elements fuel' r' (v :: acc)
              else if c =? 93 then Some (JArray (rev (v :: acc)), r')
              else None
          | [] => None
          end
      end
  end
with parse_members (fuel : nat) (s : jsstring) (acc : list (jsstring * json))
  : option (json * jsstring) :=
  match fuel with
  | O => None
  | S fuel' =>
      match skip_ws s with
      | q :: r0 =>
          if q =? 34 then
            match parse_chars r0 [] with
            | None => None
            | Some (k, r1) =>
                match skip_ws r1 with
                | c1 :: r2 =>
                    if c1 =? 58 then
                      match parse_value fuel' r2 with
                      | None => None
                      | Some (v, r3) =>
                          match skip_ws r3 with
                          | c :: r' =>
                              if c =? 44 then
                                parse_members fuel' r' ((k, v) :: acc)
                              else if c =? 125 then
                                Some (JObject (rev ((k, v) :: acc)), r')
                              else None
                          | [] => None
                          end
                      end
                    else None
                | [] => None
                end
            end
          else None
      | [] => None
      end
  end.

(** [JSON.parse]: one value, then only white space. [None] stands for the
    [SyntaxError] it throws. The fuel is twice the length of the text and
    two more, past which more fuel changes nothing ([parse_fuel]). *)
Definition parse (s : jsstring) : option json :=
  match parse_value (2 * List.length s + 2) s with
  | Some (v, r) => if falsy (skip_ws r) then Some v else None
  | None => None
  end.

(** ** Response schemas

    The descriptor passed as [responseSchema]: [Type.OBJECT] with its
    [properties] and [required] names, [Type.ARRAY] with its [items],
    [Type.STRING], [Type.NUMBER]. *)
Inductive Schema : Type :=
| TObject (properties : list (jsstring * Schema)) (required : list jsstring)
| TArray (items : Schema)
| TString
| TNumber.

(** What the remote service promises about a response produced under a
    schema: a value of the described shape. An array schema bounds the
    type of the items, not their number. *)
Fixpoint conforms (sch : Schema) (v : json) {struct sch} : bool :=
  match sch, v with
  | TString, JString _ => true
  | TNumber, JNumber _ => true
  | TArray items, JArray l => forallb (conforms items) l
  | TObject props req, JObject ms =>
      forallb (fun k => match lookup k ms with Some _ => true | None => false end) req
      && (fix each (ps : list (jsstring * Schema)) : bool :=
            match ps with
            | [] => true
            | (k, s) :: ps' =>
                match lookup k ms with
                | Some w => conforms s w
                | None => true
                end && each ps'
            end) props
  | _, _ => false
  end.

End Json.

(* ===================================================================== *)
(** * [types.ts]                                                         *)
(* ===================================================================== *)

Module Types.
Import JsString Json.

Inductive Role : Type := USER | ASSISTANT.

Definition Role_eqb (a b : Role) : bool :=
  match a, b with
  | USER, USER | ASSISTANT, ASSISTANT => true
  | _, _ => false
  end.

Record Message : Type := {
  role : Role;
  content : jsstring;
  timestamp : Z
}.

Record SpeechState : Type := {
  isListening : bool;
  transcript : jsstring;
  isProcessing : bool;
  error : option jsstring            (* string | null *)
}.

(** [EvaluationResult] is a compile-time interface: [JSON.parse(...) as
    EvaluationResult] checks nothing when it runs, so a value of that type
    is whatever JSON value the text denoted. Its fields are property
    reads. *)
Definition EvaluationResult : Type := json.

Definition band_score (e : EvaluationResult) := get (str "band_score") e.
Definition feedback (e : EvaluationResult) := get (str "feedback") e.
Definition grammar_corrections (e : EvaluationResult) :=
  get (str "grammar_corrections") e.
Definition tips (e : EvaluationResult) := get (str "tips") e.

End Types.

(* ===================================================================== *)
(** * [geminiService.ts]                                                 *)
(* ===================================================================== *)

Module GeminiService.
Import JsString Json Types.

(** A thrown [Error] carries its message. *)
Inductive Result (A : Type) : Type :=
| Ok (a : A)
| Err (message : jsstring).
Arguments Ok {A} a.
Arguments Err {A} message.

(** One turn of a request: [{ role, parts: [{ text }] }]. *)
Record Content : Type := {
  c_role : jsstring;
  parts : list jsstring
}.

Record Config : Type := {
  systemInstruction : option jsstring;
  temperature : option Q;
  topP : option Q;
  topK : option Z;
  responseMimeType : option jsstring;
  responseSchema : option Schema
}.

Record Request : Type := {
  model : jsstring;
  contents : list Content;
  config : Config
}.

(** The reply object; [text] may be [undefined]. *)
Record Response : Type := { text : option jsstring }.

Definition LF : jsstring := [10%N].

(** Source text that contains double quotes, written here with an
    apostrophe in the place of each. *)
Definition quoted (s : string) : jsstring :=
  map (fun c => if (c =? 39)%N then 34%N else c) (str s).

Definition SYSTEM_INSTRUCTION : jsstring :=
  str "You are LinguaBot, a friendly English speaking coach. " ++ LF ++
  str "Reply conversationally in spoken English, not formal writing." ++ LF ++
  str "Keep responses under 3 short sentences." ++ LF ++
  str "Ask simple follow-up questions to continue the conversation." ++ LF ++
  str "Gently correct major grammar mistakes by naturally restating the correct sentence in your reply.".

Definition MODEL : jsstring := str "gemini-3-flash-preview".

Definition CHAT_FALLBACK : jsstring :=
  str "I'm sorry, I couldn't process that.".

Definition CHAT_ERROR : jsstring :=
  str "Failed to get response from LinguaBot.".

Definition EVALUATION_ERROR : jsstring :=
  str "Failed to evaluate your speaking.".

Definition chatContents (history : list Message) : list Content :=
  map (fun msg =>
         {| c_role := if Role_eqb (role msg) USER
                      then str "user" else str "model";
            parts := [content msg] |})
      history.

Definition chatRequest (history : list Message) : Request :=
  {| model := MODEL;
     contents := chatContents history;
     config := {| systemInstruction := Some SYSTEM_INSTRUCTION;
                  temperature := Some (7 # 10)%Q;
                  topP := Some (95 # 100)%Q;
                  topK := Some 40%Z;
                  responseMimeType := None;
                  responseSchema := None |} |}.

Definition evaluationPrompt (text : jsstring) : jsstring :=
  str "You are an IELTS speaking examiner." ++ LF ++
  str "Evaluate the following spoken answer and return ONLY valid JSON:" ++ LF ++
  LF ++
  str "{" ++ LF ++
  quoted "  'band_score': number," ++ LF ++
  quoted "  'feedback': string," ++ LF ++
  quoted "  'grammar_corrections': [" ++ LF ++
  quoted "    {'original': string, 'corrected': string}" ++ LF ++
  str "  ]," ++ LF ++
  quoted "  'tips': [string, string, string]" ++ LF ++
  str "}" ++ LF ++
  LF ++
  str "Answer: " ++ text.

Definition evaluationSchema : Schema :=
  TObject
    [ (str "band_score", TNumber);
      (str "feedback", TString);
      (str "grammar_corrections",
       TArray (TObject [ (str "original", TString);
                         (str "corrected", TString) ]
                       [ str "original"; str "corrected" ]));
      (str "tips", TArray TString) ]
    [ str "band_score"; str "feedback"; str "grammar_corrections";
      str "tips" ].

Definition evaluationRequest (text : jsstring) : Request :=
  {| model := MODEL;
     contents := [ {| c_role := str "user";
                      parts := [evaluationPrompt text] |} ];
     config := {| systemInstruction := None;
                  temperature := None;
                  topP := None;
                  topK := None;
                  responseMimeType := Some (str "application/json");
                  responseSchema := Some evaluationSchema |} |}.

Section Remote.

(** [ai.models.generateContent], the remote call: [None] when the awaited
    promise rejects. *)
Variable generateContent : Request -> option Response.

Definition getGeminiChatResponse (history : list Message) : Result jsstring :=
  match generateContent (chatRequest history) with
  | Some response =>
      Ok (match text response with
          | Some t => if falsy t then CHAT_FALLBACK else t   (* t || ... *)
          | None => CHAT_FALLBACK
          end)
  | None => Err CHAT_ERROR
  end.

Definition evaluateSpeaking (utterance : jsstring) : Result EvaluationResult :=
  match generateContent (evaluationRequest utterance) with
  | Some response =>
      match text response with
      | Some t =>
          let jsonStr := trim t in
          match parse jsonStr with
          | Some v => Ok v
          | None => Err EVALUATION_ERROR      (* SyntaxError, caught *)
          end
      | None => Err EVALUATION_ERROR          (* TypeError, caught *)
      end
  | None => Err EVALUATION_ERROR
  end.

End Remote.

End GeminiService.

(* ===================================================================== *)
(** * [App.tsx]: component state and handlers                            *)
(* ===================================================================== *)

Module Controller.
Import JsString Json Types GeminiService.

(** The [useState] cells of [App], and whether [recognitionRef.current]
    holds a recognition object. [evaluation] is [null] when there is no
    report. *)
Record App : Type := {
  messages : list Message;
  speechState : SpeechState;
  evaluation : EvaluationResult;
  isEvaluating : bool;
  recognitionRef : bool
}.

(** Object spread [{ ...prev, field: v }] on the speech state. *)
Definition with_isListening (b : bool) (prev : SpeechState) : SpeechState :=
  {| isListening := b; transcript := transcript prev;
     isProcessing := isProcessing prev; error := error prev |}.

Definition with_transcript (t : jsstring) (prev : SpeechState) : SpeechState :=
  {| isListening := isListening prev; transcript := t;
     isProcessing := isProcessing prev; error := error prev |}.

Definition with_isProcessing (b : bool) (prev : SpeechState) : SpeechState :=
  {| isListening := isListening prev; transcript := transcript prev;
     isProcessing := b; error := error prev |}.

Definition with_error (e : option jsstring) (prev : SpeechState)
  : SpeechState :=
  {| isListening := isListening prev; transcript := transcript prev;
     isProcessing := isProcessing prev; error := e |}.

(** Calls that are awaited: the handler stops there and its remainder runs
    when the promise settles. *)
Inductive Pending : Type :=
| UserMedia                              (* getUserMedia({ audio: true }) *)
| Chat (history : list Message)          (* getGeminiChatResponse(history) *)
| Evaluation (utterance : jsstring).     (* evaluateSpeaking(utterance) *)

(** Calls that are not awaited. *)
Inductive Effect : Type :=
| RecognitionStart
| RecognitionStop
| SpeakText (text : jsstring)
| ScrollToEvaluation.

(** What a handler does, in program order: state setters (a functional
    update receives the latest state, whatever the handler's closure
    saw), plain calls, and the call it awaits. *)
Inductive Op : Type :=
| SetSpeechState (f : SpeechState -> SpeechState)
| SetMessages (f : list Message -> list Message)
| SetEvaluation (v : EvaluationResult)
| SetIsEvaluating (b : bool)
| Do (e : Effect)
| Await (p : Pending).

Definition perform (a : App) (o : Op) : App :=
  match o with
  | SetSpeechState f =>
      {| messages := messages a; speechState := f (speechState a);
         evaluation := evaluation a; isEvaluating := isEvaluating a;
         recognitionRef := recognitionRef a |}
  | SetMessages f =>
      {| messages := f (messages a); speechState := speechState a;
         evaluation := evaluation a; isEvaluating := isEvaluating a;
         recognitionRef := recognitionRef a |}
  | SetEvaluation v =>
      {| messages := messages a; speechState := speechState a;
         evaluation := v; isEvaluating := isEvaluating a;
         recognitionRef := recognitionRef a |}
  | SetIsEvaluating b =>
      {| messages := messages a; speechState := speechState a;
         evaluation := evaluation a; isEvaluating := b;
         recognitionRef := recognitionRef a |}
  | Do _ | Await _ => a
  end.

(** The state after a run of operations. *)
Definition exec (ops : list Op) (a : App) : App := fold_left perform ops a.

Definition awaits (ops : list Op) : list Pending :=
  flat_map (fun o => match o with Await p => [p] | _ => [] end) ops.


(** ** Messages shown to the user *)

Definition GREETING : jsstring :=
  str "Hi! I'm LinguaBot. I'm here to help you practice your English. Ready to start talking?".

Definition UNSUPPORTED : jsstring :=
  str "Web Speech API is not supported in this browser. Please use a modern browser like Chrome or Edge.".

Definition RECOGNITION_ERROR : jsstring :=
  str "An error occurred with speech recognition.".
Definition RECOGNITION_BLOCKED : jsstring :=
  str "Microphone access is blocked. Please check your browser's site settings and 'Allow' microphone access for this site.".
Definition NO_SPEECH : jsstring :=
  str "No speech was detected. Please try speaking clearly.".
Definition NETWORK_ERROR : jsstring :=
  str "A network error occurred. Please check your internet connection.".
Definition NO_MICROPHONE : jsstring :=
  str "No microphone was found. Please ensure your microphone is plugged in.".

Definition PERMISSION_DENIED : jsstring :=
  str "Microphone permission denied. Please allow microphone access in your browser settings to continue.".
Definition PERMISSION_BLOCKED : jsstring :=
  str "Microphone access is blocked. Click the 'lock' or 'camera/mic' icon in your browser's address bar to reset permissions.".
Definition MICROPHONE_NOT_FOUND : jsstring :=
  str "No microphone found. Please connect a microphone and try again.".

Definition NOTHING_HEARD : jsstring :=
  str "I didn't hear anything. Try clicking 'Start Talking' again.".
Definition CONNECTION_FAILED : jsstring :=
  str "Failed to connect to LinguaBot service. Please check your connection.".
Definition NOT_SPOKEN_YET : jsstring :=
  str "You haven't spoken yet! Say something first.".
Definition EVALUATION_FAILED : jsstring :=
  str "Could not evaluate your speaking at this time.".

(** ** Mounting *)

Definition initialState (now : Z) : App :=
  {| messages := [ {| role := ASSISTANT; content := GREETING;
                      timestamp := now |} ];
     speechState := {| isListening := false; transcript := [];
                       isProcessing := false; error := None |};
     evaluation := null;
     isEvaluating := false;
     recognitionRef := false |}.

(** The mount effect: [supported] tells whether the browser offers
    [SpeechRecognition] or [webkitSpeechRecognition]. *)
Definition mount (supported : bool) (now : Z) : App :=
  let a := initialState now in
  if supported then
    {| messages := messages a; speechState := speechState a;
       evaluation := evaluation a; isEvaluating := isEvaluating a;
       recognitionRef := true |}
  else exec [SetSpeechState (fun prev => with_error (Some UNSUPPORTED) prev)] a.

(** ** Recognition callbacks *)

(** [event.results[i][0].transcript] for each [i], as [results]. *)
Definition onresult (resultIndex : nat) (results : list jsstring) : list Op :=
  let currentTranscript := List.concat (skipn resultIndex results) in
  [SetSpeechState (fun prev => with_transcript currentTranscript prev)].

Definition onerror (code : jsstring) : list Op :=
  let userFriendlyError :=
    if eqb code (str "not-allowed") then RECOGNITION_BLOCKED
    else if eqb code (str "no-speech") then NO_SPEECH
    else if eqb code (str "network") then NETWORK_ERROR
    else if eqb code (str "audio-capture") then NO_MICROPHONE
    else RECOGNITION_ERROR in
  [SetSpeechState
     (fun prev => with_isListening false (with_error (Some userFriendlyError) prev))].

Definition onend : list Op :=
  [SetSpeechState (fun prev => with_isListening false prev)].

(** ** [startListening] *)

(** How the awaited permission request and the [start()] call after it
    turn out; a rejection or an exception carries [err.name]. *)
Inductive MediaOutcome : Type :=
| Granted (startThrows : option jsstring)
| Denied (name : jsstring).

Definition startListening_click : list Op :=
  [SetSpeechState (fun prev => with_transcript [] (with_error None prev));
   Await UserMedia].

Definition startListening_catch (name : jsstring) : list Op :=
  let errMsg :=
    if eqb name (str "NotAllowedError") || eqb name (str "PermissionDeniedError")
    then PERMISSION_BLOCKED
    else if eqb name (str "NotFoundError") || eqb name (str "DevicesNotFoundError")
    then MICROPHONE_NOT_FOUND
    else PERMISSION_DENIED in
  [SetSpeechState
     (fun prev => with_isListening false (with_error (Some errMsg) prev))].

Definition startListening_settled (o : MediaOutcome) (c : App) : list Op :=
  match o with
  | Granted startThrows =>
      if recognitionRef c then
        [SetSpeechState (fun prev => with_isListening true prev);
         Do RecognitionStart]
        ++ match startThrows with
           | Some name => startListening_catch name
           | None => []
           end
      else []
  | Denied name => startListening_catch name
  end.

(** ** [stopListeningAndSend] *)

(** [c] is the render the clicked handler closed over: [speechState] and
    [messages] are read from it. *)
Definition stopListeningAndSend_click (now : Z) (c : App) : list Op :=
  if recognitionRef c then
    [Do RecognitionStop;
     SetSpeechState (fun prev => with_isListening false prev)]
    ++
    let finalTranscript := trim (transcript (speechState c)) in
    if falsy finalTranscript then
      [SetSpeechState (fun prev => with_error (Some NOTHING_HEARD) prev)]
    else
      let userMessage :=
        {| role := USER; content := finalTranscript; timestamp := now |} in
      let newHistory := messages c ++ [userMessage] in
      [SetMessages (fun _ => newHistory);
       SetSpeechState
         (fun prev => with_transcript [] (with_isProcessing true prev));
       SetEvaluation null;
       Await (Chat newHistory)]
  else [].

(** The part after the [await]; [speakText] is fire-and-forget and taken
    not to throw. *)
Definition stopListeningAndSend_settled (r : Result jsstring) (now : Z)
  : list Op :=
  match r with
  | Ok aiResponse =>
      let aiMessage :=
        {| role := ASSISTANT; content := aiResponse; timestamp := now |} in
      [SetMessages (fun prev => prev ++ [aiMessage]);
       Do (SpeakText aiResponse)]
  | Err _ =>
      [SetSpeechState (fun prev => with_error (Some CONNECTION_FAILED) prev)]
  end
  ++ [SetSpeechState (fun prev => with_isProcessing false prev)].

(** ** [handleEvaluate] *)

Definition handleEvaluate_click (c : App) : list Op :=
  match find (fun m => Role_eqb (role m) USER) (rev (messages c)) with
  | None =>
      [SetSpeechState (fun prev => with_error (Some NOT_SPOKEN_YET) prev)]
  | Some lastUserMessage =>
      [SetIsEvaluating true;
       SetSpeechState (fun prev => with_error None prev);
       Await (Evaluation (content lastUserMessage))]
  end.

Definition handleEvaluate_settled (r : Result EvaluationResult) : list Op :=
  match r with
  | Ok result => [SetEvaluation result; Do ScrollToEvaluation]
  | Err _ =>
      [SetSpeechState (fun prev => with_error (Some EVALUATION_FAILED) prev)]
  end
  ++ [SetIsEvaluating false].

(** The Close Analysis button. *)
Definition closeAnalysis : list Op := [SetEvaluation null].

(** ** A handler run from its click to its end

    The awaited call settles before anything else happens: the action as
    one uninterrupted run. *)

Section Uninterrupted.

Variable generateContent : Request -> option Response.

Definition startListening (o : MediaOutcome) (c : App) : list Op :=
  let ops := startListening_click in
  ops ++ startListening_settled o (exec ops c).

Definition stopListeningAndSend (now now' : Z) (c : App) : list Op :=
  let ops := stopListeningAndSend_click now c in
  ops ++ flat_map
           (fun p => match p with
                     | Chat h =>
                         stopListeningAndSend_settled
                           (getGeminiChatResponse generateContent h) now'
                     | _ => []
                     end)
           (awaits ops).

Definition handleEvaluate (c : App) : list Op :=
  let ops := handleEvaluate_click c in
  ops ++ flat_map
           (fun p => match p with
                     | Evaluation u =>
                         handleEvaluate_settled
                           (evaluateSpeaking generateContent u)
                     | _ => []
                     end)
           (awaits ops).

End Uninterrupted.

End Controller.

(* ===================================================================== *)
(** * The event loop                                                     *)
(* ===================================================================== *)

Module Session.
Import JsString Json Types GeminiService Controller.

(** The component state together with the awaited calls that have not
    settled yet. *)
Record Session : Type := {
  app : App;
  pending : list Pending
}.

(** What the event loop can deliver: a click on one of the four buttons,
    the settling of the [i]-th awaited call, or a callback of the
    recognition object. [Date.now()] is read where the handler reads it. *)
Inductive Event : Type :=
| ClickStart
| ClickStop (now : Z)
| ClickReport
| ClickClose
| MediaSettled (i : nat) (o : MediaOutcome)
| ChatSettled (i : nat) (reply : option Response) (now : Z)
| EvaluationSettled (i : nat) (reply : option Response)
| OnResult (resultIndex : nat) (results : list jsstring)
| OnError (code : jsstring)
| OnEnd.

(** The guards of the rendered buttons. Start Talking is rendered when not
    listening and disabled while processing or evaluating; Stop & Send is
    rendered when listening; Performance Report is disabled while
    listening, processing or evaluating and until there are two messages;
    Close Analysis is rendered with the report. *)
Definition startEnabled (a : App) : bool :=
  negb (isListening (speechState a))
  && negb (isProcessing (speechState a) || isEvaluating a).

Definition stopEnabled (a : App) : bool := isListening (speechState a).

Definition reportEnabled (a : App) : bool :=
  negb (isListening (speechState a) || isProcessing (speechState a)
        || isEvaluating a || (List.length (messages a) <? 2)%nat).

Definition closeEnabled (a : App) : bool := truthy (evaluation a).

Fixpoint remove_nth {A : Type} (i : nat) (l : list A) : list A :=
  match i, l with
  | _, [] => []
  | O, _ :: r => r
  | S j, x :: r => x :: remove_nth j r
  end.

(** The operations an event triggers, when it can occur in [s]. *)
Definition react (e : Event) (s : Session) : option (list Op * list Pending) :=
  let a := app s in
  match e with
  | ClickStart =>
      if startEnabled a then Some (startListening_click, pending s) else None
  | ClickStop now =>
      if stopEnabled a
      then Some (stopListeningAndSend_click now a, pending s) else None
  | ClickReport =>
      if reportEnabled a
      then Some (handleEvaluate_click a, pending s) else None
  | ClickClose =>
      if closeEnabled a then Some (closeAnalysis, pending s) else None
  | MediaSettled i o =>
      match nth_error (pending s) i with
      | Some UserMedia =>
          Some (startListening_settled o a, remove_nth i (pending s))
      | _ => None
      end
  | ChatSettled i reply now =>
      match nth_error (pending s) i with
      | Some (Chat h) =>
          Some (stopListeningAndSend_settled
                  (getGeminiChatResponse (fun _ => reply) h) now,
                remove_nth i (pending s))
      | _ => None
      end
  | EvaluationSettled i reply =>
      match nth_error (pending s) i with
      | Some (Evaluation u) =>
          Some (handleEvaluate_settled (evaluateSpeaking (fun _ => reply) u),
                remove_nth i (pending s))
      | _ => None
      end
  | OnResult k results =>
      if recognitionRef a then Some (onresult k results, pending s) else None
  | OnError code =>
      if recognitionRef a then Some (onerror code, pending s) else None
  | OnEnd =>
      if recognitionRef a then Some (onend, pending s) else None
  end.

Definition step (e : Event) (s : Session) : option Session :=
  match react e s with
  | Some (ops, rest) =>
      Some {| app := exec ops (app s); pending := rest ++ awaits ops |}
  | None => None
  end.

Fixpoint run (es : list Event) (s : Session) : option Session :=
  match es with
  | [] => Some s
  | e :: r => match step e s with Some s' => run r s' | None => None end
  end.

Definition boot (supported : bool) (now : Z) : Session :=
  {| app := mount supported now; pending := [] |}.

(** A discipline on the user's clicks, on top of the button guards. *)
Definition Policy : Type := Session -> Event -> bool.

Definition anyClick : Policy := fun _ _ => true.

Definition isUserMedia (p : Pending) : bool :=
  match p with UserMedia => true | _ => false end.

(** Start Talking is not clicked again while an earlier click still waits
    for the microphone permission. *)
Definition oneStartAtATime : Policy :=
  fun s e =>
    match e with
    | ClickStart => negb (existsb isUserMedia (pending s))
    | _ => true
    end.

(** Whether the discipline [P] admits each event of [es], run from [s]. *)
Fixpoint allowed (P : Policy) (es : list Event) (s : Session) : bool :=
  match es with
  | [] => true
  | e :: r =>
      P s e && match step e s with
               | Some s' => allowed P r s'
               | None => false
               end
  end.

(** The number of permission requests that have not settled. *)
Definition waiting (s : Session) : nat :=
  List.length (filter isUserMedia (pending s)).

Inductive reachable (P : Policy) : Session -> Prop :=
| reach_boot supported now : reachable P (boot supported now)
| reach_step s e s' :
    reachable P s -> P s e = true -> step e s = Some s' -> reachable P s'.

(** Every state the component goes through: the state between events, and
    the state after each operation inside a handler. *)
Inductive observable (P : Policy) : App -> Prop :=
| obs_between s : reachable P s -> observable P (app s)
| obs_within s e ops rest k :
    reachable P s -> P s e = true -> react e s = Some (ops, rest) ->
    observable P (exec (firstn k ops) (app s)).

End Session.

(* ===================================================================== *)
(** * Properties of states and runs                                      *)
(* ===================================================================== *)

Module Properties.
Import JsString Json Types GeminiService Controller Session.

(** [tips] is an array of exactly three strings. *)
Definition threeStrings (v : option json) : bool :=
  match v with
  | Some (JArray [JString _; JString _; JString _]) => true
  | _ => false
  end.

Definition isString (v : json) : bool :=
  match v with JString _ => true | _ => false end.

Definition hasUser (ms : list Message) : bool :=
  existsb (fun m => Role_eqb (role m) USER) ms.

(** [m] is the most recent USER message of [ms]. *)
Definition mostRecentUser (m : Message) (ms : list Message) : Prop :=
  exists before later,
    ms = before ++ m :: later /\ role m = USER /\ hasUser later = false.

(** The message [stopListeningAndSend] builds when clicked at [now] in
    the state [c], and the reply message built at [now]. *)
Definition userMessageOf (c : App) (now : Z) : Message :=
  {| role := USER; content := trim (transcript (speechState c));
     timestamp := now |}.

Definition aiMessageOf (reply : jsstring) (now : Z) : Message :=
  {| role := ASSISTANT; content := reply; timestamp := now |}.

Definition exclusive (a : App) : Prop :=
  isListening (speechState a) && isProcessing (speechState a) = false.

(** What holds between events when Start Talking is clicked one at a
    time: at most one permission request is open, none while listening,
    and processing excludes both listening and an open request. *)
Definition serial (s : Session) : Prop :=
  (waiting s <= 1)%nat /\
  (isListening (speechState (app s)) = true -> waiting s = 0%nat) /\
  (isProcessing (speechState (app s)) = true ->
   isListening (speechState (app s)) = false /\ waiting s = 0%nat).

(** Until the user has spoken there is no report, and none is being
    computed. *)
Definition reportNeedsUser (s : Session) : Prop :=
  hasUser (messages (app s)) = false ->
  evaluation (app s) = null /\ forall u, ~ In (Evaluation u) (pending s).

(** [Q] holds before and after every operation of [ops], run from [a]. *)
Fixpoint always (Q : App -> Prop) (ops : list Op) (a : App) : Prop :=
  Q a /\ match ops with
         | [] => True
         | o :: r => always Q r (perform a o)
         end.

End Properties.

(* ===================================================================== *)
(** * Scenarios                                                          *)
(* ===================================================================== *)

Module Scenario.
Import JsString Json Types GeminiService Controller Session.

(** The session after [es], from a browser that supports recognition,
    mounted at time [0]. *)
Definition after (es : list Event) : Session :=
  match run es (boot true 0) with
  | Some s => s
  | None => boot true 0
  end.

(** A remote service that answers every request with the text [t]. *)
Definition answering (t : jsstring) : Request -> option Response :=
  fun _ => Some {| text := Some t |}.

(** A remote service that answers with an empty body. *)
Definition silent : Request -> option Response :=
  fun _ => Some {| text := None |}.

(** A remote service that cannot be reached. *)
Definition unreachable : Request -> option Response := fun _ => None.

(** The user clicked Start Talking, granted the microphone and said
    " hello ". *)
Definition heard : list Event :=
  [ClickStart; MediaSettled 0 (Granted None); OnResult 0 [str " hello "]].

(** The same, with nothing but white space recognised. *)
Definition heardNothing : list Event :=
  [ClickStart; MediaSettled 0 (Granted None); OnResult 0 [str "  "]].

(** A reply of the evaluation service that has the shape of the response
    schema and two tips. *)
Definition twoTips : jsstring :=
  quoted "{'band_score':6,'feedback':'ok','grammar_corrections':[],'tips':['t1','t2']}".

(** The example response of the evaluation service, with three tips. *)
Definition threeTips : jsstring :=
  quoted "{'band_score':5.5,'feedback':'...','grammar_corrections':[{'original':'I go to school yesterday','corrected':'I went to school yesterday'}],'tips':['t1','t2','t3']}".

(** What [JSON.parse] makes of these two replies. *)
Definition twoTipsResult : EvaluationResult :=
  JObject [ (str "band_score", JNumber (str "6"));
            (str "feedback", JString (str "ok"));
            (str "grammar_corrections", JArray []);
            (str "tips", JArray [JString (str "t1"); JString (str "t2")]) ].

Definition threeTipsResult : EvaluationResult :=
  JObject [ (str "band_score", JNumber (str "5.5"));
            (str "feedback", JString (str "..."));
            (str "grammar_corrections",
             JArray [ JObject
                        [ (str "original",
                           JString (str "I go to school yesterday"));
                          (str "corrected",
                           JString (str "I went to school yesterday")) ] ]);
            (str "tips",
             JArray [JString (str "t1"); JString (str "t2");
                     JString (str "t3")]) ].

(** One full turn. *)
Definition oneTurn : list Event :=
  heard ++
  [ClickStop 10;
   ChatSettled 0 (Some {| text := Some (str "Hello! How are you?") |}) 20].

(** One full turn and a report on it. *)
Definition reported : list Event :=
  oneTurn ++
  [ClickReport;
   EvaluationSettled 0 (Some {| text := Some threeTips |})].

(** Two turns: "hello", then "I go to school yesterday". *)
Definition twoTurns : list Event :=
  oneTurn ++
  [ClickStart; MediaSettled 0 (Granted None);
   OnResult 0 [str "I go to school "; str "yesterday"];
   ClickStop 30;
   ChatSettled 0 (Some {| text := Some (str "nice") |}) 40].

(** Start Talking clicked twice before the permission request settles;
    the first request settles, the user speaks and sends; recognition
    ends; then the second request settles, while the reply is awaited. *)
Definition overlappingStarts : list Event :=
  [ClickStart; ClickStart;
   MediaSettled 0 (Granted None);
   OnResult 0 [str "hi"];
   ClickStop 5;
   OnEnd;
   MediaSettled 0 (Granted None)].

(** A recognition result that arrives after Stop & Send, before the
    reply: the order browsers usually deliver them in. *)
Definition lateResult : list Event :=
  heard ++
  [ClickStop 10;
   OnResult 0 [str "late words"];
   ChatSettled 0 (Some {| text := Some (str "Hello! How are you?") |}) 20].

(** Start Talking clicked twice, and "hi" heard on the first grant. *)
Definition startedTwice : list Event :=
  [ClickStart; ClickStart;
   MediaSettled 0 (Granted None);
   OnResult 0 [str "hi"]].

(** After that: "hi" is sent at 5; the second grant arrives while its
    reply is awaited, "again" is heard and sent at 6; then the call made
    for "hi" fails. *)
Definition failedAfterOverlap : list Event :=
  startedTwice ++
  [ClickStop 5;
   OnEnd;
   MediaSettled 0 (Granted None);
   OnResult 0 [str "again"];
   ClickStop 6;
   ChatSettled 0 None 7].

End Scenario.

(* ===================================================================== *)
(** * [speakText]                                                        *)
(* ===================================================================== *)

Module Speech.
Import JsString.

(** The two fields of a [SpeechSynthesisVoice] the code reads. *)
Record Voice : Type := {
  lang : jsstring;
  name : jsstring
}.

(** [s.startsWith(p)]. *)
Fixpoint startsWith (p s : jsstring) : bool :=
  match p, s with
  | [], _ => true
  | a :: p', b :: s' => (a =? b)%N && startsWith p' s'
  | _ :: _, [] => false
  end.

(** [s.includes(p)]: [p] occurs at some position of [s]. *)
Fixpoint includes (p s : jsstring) : bool :=
  startsWith p s
  || match s with
     | [] => false
     | _ :: r => includes p r
     end.



(** [voices.find(english and Google) || voices.find(english)]. *)
Definition englishVoice (voices : list Voice) : option Voice :=
  match find (fun v => startsWith (str "en") (lang v)
                       && includes (str "Google") (name v)) voices with
  | Some v => Some v
  | None => find (fun v => startsWith (str "en") (lang v)) voices
  end.


End Speech.

(* ===================================================================== *)
(** * Calls in flight                                                    *)
(* ===================================================================== *)

Module Flight.
Import JsString Json Types GeminiService Controller Session Properties.

Definition isChat (p : Pending) : bool :=
  match p with Chat _ => true | _ => false end.

Definition isEvaluation (p : Pending) : bool :=
  match p with Evaluation _ => true | _ => false end.

(** The number of conversation calls, and of evaluation calls, that have
    not settled. *)
Definition chatsInFlight (s : Session) : nat :=
  List.length (filter isChat (pending s)).

Definition evaluationsInFlight (s : Session) : nat :=
  List.length (filter isEvaluation (pending s)).

(** What the remote service is told of a message. *)
Definition transmitted (m : Message) : Role * jsstring :=
  (role m, content m).

(** A message with some content, trimmed if the user said it. *)
Definition wellFormed (m : Message) : Prop :=
  content m <> [] /\ (role m = USER -> tight (content m)).


(** [c] with another transcript. *)
Definition withTranscript (t : jsstring) (c : App) : App :=
  perform c (SetSpeechState (fun prev => with_transcript t prev)).

(** Nothing has been said yet and nothing is going on. *)
Definition idle (now : Z) (s : Session) : Prop :=
  messages (app s) = messages (initialState now)
  /\ evaluation (app s) = null
  /\ isListening (speechState (app s)) = false
  /\ isProcessing (speechState (app s)) = false
  /\ isEvaluating (app s) = false
  /\ chatsInFlight s = 0%nat
  /\ evaluationsInFlight s = 0%nat.


(** The events of a conversation turn: a Stop & Send click, or the
    settling of a conversation call. *)
Definition isTurn (e : Event) : bool :=
  match e with
  | ClickStop _ | ChatSettled _ _ _ => true
  | _ => false
  end.

Definition isResult (e : Event) : bool :=
  match e with
  | OnResult _ _ => true
  | _ => false
  end.

(** No event of [es] belongs to a conversation turn; none is a
    recognition result. *)
Definition noTurn (es : list Event) : bool :=
  forallb (fun e => negb (isTurn e)) es.

Definition noResult (es : list Event) : bool :=
  forallb (fun e => negb (isResult e)) es.

(** The JSON values JavaScript takes for false. *)
Inductive Falsy : json -> Prop :=
| Falsy_null : Falsy JNull
| Falsy_false : Falsy (JBool false)
| Falsy_empty : Falsy (JString [])
| Falsy_zero l : zeroLiteral l = true -> Falsy (JNumber l).

End Flight.

Import JsString Json Types GeminiService Controller Session Properties
  Scenario.

(* ===================================================================== *)
(** * Facts about strings                                                *)
(* ===================================================================== *)

Lemma eqb_eq a b : eqb a b = true <-> a = b.
Proof.
  unfold eqb. destruct (list_eq_dec N.eq_dec a b); split; congruence.
Qed.

Lemma leading_trimStart s : s = leadingSpace s ++ trimStart s.
Proof.
  induction s as [|c r IH]; simpl; [reflexivity|].
  destruct (isWhiteSpace c); simpl; congruence.
Qed.

Lemma leadingSpace_white s : whitespaceOnly (leadingSpace s) = true.
Proof.
  induction s as [|c r IH]; simpl; [reflexivity|].
  destruct (isWhiteSpace c) eqn:E; simpl; [rewrite E|]; auto.
Qed.

Lemma trimStart_head s c r : trimStart s = c :: r -> isWhiteSpace c = false.
Proof.
  induction s as [|d t IH]; simpl; [discriminate|].
  destruct (isWhiteSpace d) eqn:E; [exact IH|].
  intros H; injection H as -> _; exact E.
Qed.

Lemma whitespaceOnly_app a b :
  whitespaceOnly (a ++ b) = whitespaceOnly a && whitespaceOnly b.
Proof. apply forallb_app. Qed.

Lemma whitespaceOnly_rev a : whitespaceOnly (rev a) = whitespaceOnly a.
Proof.
  induction a as [|c r IH]; simpl; [reflexivity|].
  rewrite whitespaceOnly_app, IH; simpl.
  rewrite andb_true_r; apply andb_comm.
Qed.

Lemma trimStart_white s : whitespaceOnly s = true -> trimStart s = [].
Proof.
  induction s as [|c r IH]; simpl; [reflexivity|].
  destruct (isWhiteSpace c); simpl; [exact IH|discriminate].
Qed.

Lemma trimStart_nil_white s : trimStart s = [] -> whitespaceOnly s = true.
Proof.
  induction s as [|c r IH]; simpl; [reflexivity|].
  destruct (isWhiteSpace c); simpl; [exact IH|discriminate].
Qed.

(** [trim] yields the empty string exactly on white-space-only input. *)
Lemma trim_nil_iff s : trim s = [] <-> whitespaceOnly s = true.
Proof.
  unfold trim, trimEnd. split.
  - intros H.
    assert (H1 : trimStart (rev (trimStart s)) = []).
    { rewrite <- (rev_involutive (trimStart (rev (trimStart s)))), H.
      reflexivity. }
    apply trimStart_nil_white in H1. rewrite whitespaceOnly_rev in H1.
    rewrite (leading_trimStart s), whitespaceOnly_app, H1.
    now rewrite leadingSpace_white.
  - intros H. now rewrite (trimStart_white s H).
Qed.

Lemma trimEnd_suffix m : m = trimEnd m ++ rev (leadingSpace (rev m)).
Proof.
  unfold trimEnd.
  rewrite <- rev_app_distr, <- leading_trimStart. symmetry.
  apply rev_involutive.
Qed.

(** [trim s] is [s] with a white-space prefix and a white-space suffix
    removed, and nothing more could be removed at either end. *)
Lemma trim_spec s :
  exists l r,
    s = l ++ trim s ++ r /\
    whitespaceOnly l = true /\ whitespaceOnly r = true /\ tight (trim s).
Proof.
  unfold trim.
  set (m := trimStart s).
  exists (leadingSpace s), (rev (leadingSpace (rev m))).
  repeat split.
  - rewrite <- trimEnd_suffix. apply leading_trimStart.
  - apply leadingSpace_white.
  - rewrite whitespaceOnly_rev. apply leadingSpace_white.
  - intros c t H.
    apply (trimStart_head s c (t ++ rev (leadingSpace (rev m)))).
    fold m. rewrite (trimEnd_suffix m) at 1. now rewrite H.
  - intros c t H. unfold trimEnd in H.
    apply (f_equal (@rev _)) in H. rewrite rev_involutive in H.
    rewrite rev_app_distr in H. simpl in H.
    apply (trimStart_head _ _ _ H).
Qed.

(** [trim] on a few transcripts. *)
Example trim_hello : trim (str "  hello world ") = str "hello world".
Proof. reflexivity. Qed.

Example trim_blank : trim ([9; 32; 10; 160; 8195; 65279]%N) = [].
Proof. reflexivity. Qed.

Example trim_inner_space_kept : trim (str "a  b") = str "a  b".
Proof. reflexivity. Qed.

(* ===================================================================== *)
(** * The parser never runs short of fuel                                *)
(* ===================================================================== *)

Lemma skip_ws_le s : (List.length (skip_ws s) <= List.length s)%nat.
Proof.
  induction s as [|c r IH]; simpl; [lia|].
  destruct (isJsonSpace c); simpl; lia.
Qed.

Lemma skip_ws_cons s c r :
  skip_ws s = c :: r -> (S (List.length r) <= List.length s)%nat.
Proof. intros H. pose proof (skip_ws_le s) as L. rewrite H in L. exact L. Qed.

Lemma strip_prefix_length p : forall s t,
  strip_prefix p s = Some t ->
  List.length s = (List.length p + List.length t)%nat.
Proof.
  induction p as [|a p IH]; intros [|b s] t H; simpl in *;
    try discriminate; try (injection H as <-; reflexivity).
  destruct (a =? b)%N; [|discriminate]. now rewrite (IH _ _ H).
Qed.

Lemma parse_chars_lt n : forall s acc x r,
  (List.length s <= n)%nat ->
  parse_chars s acc = Some (x, r) -> (List.length r < List.length s)%nat.
Proof.
  induction n as [|n IH]; intros [|c s] acc x r Hn H; simpl in *;
    try discriminate; try lia.
  destruct (c =? 34)%N.
  { injection H as _ <-. lia. }
  destruct (c =? 92)%N.
  - destruct s as [|e r1]; [discriminate|].
    destruct (e =? 117)%N.
    + destruct r1 as [|h1 [|h2 [|h3 [|h4 r2]]]]; try discriminate.
      destruct (hex4 h1 h2 h3 h4); [|discriminate].
      apply IH in H; simpl in *; lia.
    + destruct (unescape e); [|discriminate].
      apply IH in H; simpl in *; lia.
  - destruct (c <? 32)%N; [discriminate|].
    apply IH in H; simpl in *; lia.
Qed.

Lemma digits_le s : (List.length (snd (digits s)) <= List.length s)%nat.
Proof.
  induction s as [|c r IH]; simpl; [lia|].
  destruct (isDigit c); simpl; [|lia].
  destruct (digits r); simpl in *; lia.
Qed.

Lemma digits_length s :
  List.length s
  = (List.length (fst (digits s)) + List.length (snd (digits s)))%nat.
Proof.
  induction s as [|c r IH]; simpl; [lia|].
  destruct (isDigit c); simpl; [|lia].
  destruct (digits r); simpl in *; lia.
Qed.

Lemma take_sign_le s : (List.length (snd (take_sign s)) <= List.length s)%nat.
Proof.
  destruct s as [|c r]; simpl; [lia|]. destruct (c =? 45)%N; simpl; lia.
Qed.

Lemma take_fraction_le s f t :
  take_fraction s = Some (f, t) -> (List.length t <= List.length s)%nat.
Proof.
  destruct s as [|c r]; simpl; [intros [= <- <-]; simpl; lia|].
  destruct (c =? 46)%N; [|intros [= <- <-]; simpl; lia].
  pose proof (digits_le r) as D. destruct (digits r) as [f' t'].
  destruct (falsy f'); [discriminate|]. intros [= <- <-]. simpl in *. lia.
Qed.

Lemma take_exponent_le s e t :
  take_exponent s = Some (e, t) -> (List.length t <= List.length s)%nat.
Proof.
  destruct s as [|c r]; simpl; [intros [= <- <-]; simpl; lia|].
  destruct ((c =? 101)%N || (c =? 69)%N); [|intros [= <- <-]; simpl; lia].
  destruct (match r with
            | [] => ([], r)
            | g :: r' => if (g =? 43)%N || (g =? 45)%N then ([g], r') else ([], r)
            end) as [sg r1] eqn:Eg.
  assert (L : (List.length r1 <= List.length r)%nat).
  { destruct r as [|g r']; [injection Eg as <- <-; lia|].
    destruct ((g =? 43)%N || (g =? 45)%N); injection Eg as <- <-; simpl; lia. }
  pose proof (digits_le r1) as D. destruct (digits r1) as [e' t'].
  destruct (falsy e'); [discriminate|]. intros [= <- <-]. simpl in *. lia.
Qed.

Lemma parse_number_lt s l r :
  parse_number s = Some (l, r) -> (List.length r < List.length s)%nat.
Proof.
  unfold parse_number. intros H.
  pose proof (take_sign_le s) as L1.
  destruct (take_sign s) as [sign s1]. simpl in L1.
  pose proof (digits_length s1) as D1.
  destruct (digits s1) as [int s2]. simpl in D1.
  destruct int as [|d ds]; [discriminate|]. simpl in D1.
  destruct ((d =? 48)%N && negb (falsy ds)); [discriminate|].
  destruct (take_fraction s2) as [[f s3]|] eqn:Ef; [|discriminate].
  destruct (take_exponent s3) as [[e t]|] eqn:Ee; [|discriminate].
  injection H as _ <-.
  apply take_fraction_le in Ef. apply take_exponent_le in Ee. lia.
Qed.

(** Every successful parse consumes at least one character. *)
Lemma parse_value_lt fuel :
  (forall s v r, parse_value fuel s = Some (v, r) ->
                 (List.length r < List.length s)%nat)
  /\ (forall s acc v r, parse_elements fuel s acc = Some (v, r) ->
                        (List.length r < List.length s)%nat)
  /\ (forall s acc v r, parse_members fuel s acc = Some (v, r) ->
                        (List.length r < List.length s)%nat).
Proof.
  induction fuel as [|f (IHv & IHe & IHm)].
  { repeat split; intros; discriminate. }
  repeat split.
  - intros s v r H. cbn [parse_value parse_elements parse_members] in H.
    destruct (skip_ws s) as [|c t] eqn:Es; [discriminate|].
    apply skip_ws_cons in Es.
    destruct (c =? 123)%N.
    { destruct (skip_ws t) as [|c' t'] eqn:Et; [discriminate|].
      apply skip_ws_cons in Et.
      destruct (c' =? 125)%N; [injection H as _ <-; lia|].
      apply IHm in H. lia. }
    destruct (c =? 91)%N.
    { destruct (skip_ws t) as [|c' t'] eqn:Et; [discriminate|].
      apply skip_ws_cons in Et.
      destruct (c' =? 93)%N; [injection H as _ <-; lia|].
      apply IHe in H. lia. }
    destruct (c =? 34)%N.
    { destruct (parse_chars t []) as [[x t']|] eqn:Ec; [|discriminate].
      apply (parse_chars_lt _ _ _ _ _ (le_n _)) in Ec.
      injection H as _ <-. lia. }
    destruct (strip_prefix (str "true") (c :: t)) as [t1|] eqn:E1.
    { injection H as _ <-. apply strip_prefix_length in E1.
      simpl in E1. lia. }
    destruct (strip_prefix (str "false") (c :: t)) as [t2|] eqn:E2.
    { injection H as _ <-. apply strip_prefix_length in E2.
      simpl in E2. lia. }
    destruct (strip_prefix (str "null") (c :: t)) as [t3|] eqn:E3.
    { injection H as _ <-. apply strip_prefix_length in E3.
      simpl in E3. lia. }
    destruct (parse_number (c :: t)) as [[l t']|] eqn:En; [|discriminate].
    injection H as _ <-. apply parse_number_lt in En. simpl in En. lia.
  - intros s acc v r H. cbn [parse_value parse_elements parse_members] in H.
    destruct (parse_value f s) as [[w t]|] eqn:Ev; [|discriminate].
    apply IHv in Ev.
    destruct (skip_ws t) as [|c t'] eqn:Et; [discriminate|].
    apply skip_ws_cons in Et.
    destruct (c =? 44)%N; [apply IHe in H; lia|].
    destruct (c =? 93)%N; [|discriminate].
    injection H as _ <-. lia.
  - intros s acc v r H. cbn [parse_value parse_elements parse_members] in H.
    destruct (skip_ws s) as [|q r0] eqn:Es; [discriminate|].
    apply skip_ws_cons in Es.
    destruct (q =? 34)%N; [|discriminate].
    destruct (parse_chars r0 []) as [[k r1]|] eqn:Ec; [|discriminate].
    apply (parse_chars_lt _ _ _ _ _ (le_n _)) in Ec.
    destruct (skip_ws r1) as [|c1 r2] eqn:E1; [discriminate|].
    apply skip_ws_cons in E1.
    destruct (c1 =? 58)%N; [|discriminate].
    destruct (parse_value f r2) as [[w r3]|] eqn:Ev; [|discriminate].
    apply IHv in Ev.
    destruct (skip_ws r3) as [|c r'] eqn:E3; [discriminate|].
    apply skip_ws_cons in E3.
    destruct (c =? 44)%N; [apply IHm in H; lia|].
    destruct (c =? 125)%N; [|discriminate].
    injection H as _ <-. lia.
Qed.

(** Past twice the length of the text, more fuel changes nothing. *)
Lemma parse_value_stable f : forall g, (f <= g)%nat ->
  (forall s, (2 * List.length s <= f)%nat ->
             parse_value f s = parse_value g s)
  /\ (forall s acc, (2 * List.length s + 1 <= f)%nat ->
                    parse_elements f s acc = parse_elements g s acc)
  /\ (forall s acc, (2 * List.length s + 1 <= f)%nat ->
                    parse_members f s acc = parse_members g s acc).
Proof.
  induction f as [|f IH]; intros g Hg.
  { repeat split; intros s; intros; try lia.
    destruct s; [|simpl in *; lia]. destruct g; reflexivity. }
  destruct g as [|g]; [lia|].
  destruct (IH g ltac:(lia)) as (IHv & IHe & IHm).
  repeat split.
  - intros s Hs. cbn [parse_value parse_elements parse_members].
    destruct (skip_ws s) as [|c t] eqn:Es; [reflexivity|].
    apply skip_ws_cons in Es.
    destruct (c =? 123)%N.
    { destruct (skip_ws t) as [|c' t'] eqn:Et; [reflexivity|].
      destruct (c' =? 125)%N; [reflexivity|]. apply IHm. lia. }
    destruct (c =? 91)%N.
    { destruct (skip_ws t) as [|c' t'] eqn:Et; [reflexivity|].
      destruct (c' =? 93)%N; [reflexivity|]. apply IHe. lia. }
    reflexivity.
  - intros s acc Hs. cbn [parse_value parse_elements parse_members].
    rewrite <- (IHv s) by lia.
    destruct (parse_value f s) as [[w t]|] eqn:Ev; [|reflexivity].
    apply (proj1 (parse_value_lt f)) in Ev.
    destruct (skip_ws t) as [|c t'] eqn:Et; [reflexivity|].
    apply skip_ws_cons in Et.
    destruct (c =? 44)%N; [|reflexivity]. apply IHe. lia.
  - intros s acc Hs. cbn [parse_value parse_elements parse_members].
    destruct (skip_ws s) as [|q r0] eqn:Es; [reflexivity|].
    apply skip_ws_cons in Es.
    destruct (q =? 34)%N; [|reflexivity].
    destruct (parse_chars r0 []) as [[k r1]|] eqn:Ec; [|reflexivity].
    apply (parse_chars_lt _ _ _ _ _ (le_n _)) in Ec.
    destruct (skip_ws r1) as [|c1 r2] eqn:E1; [reflexivity|].
    apply skip_ws_cons in E1.
    destruct (c1 =? 58)%N; [|reflexivity].
    rewrite <- (IHv r2) by lia.
    destruct (parse_value f r2) as [[w r3]|] eqn:Ev; [|reflexivity].
    apply (proj1 (parse_value_lt f)) in Ev.
    destruct (skip_ws r3) as [|c r'] eqn:E3; [reflexivity|].
    apply skip_ws_cons in E3.
    destruct (c =? 44)%N; [|reflexivity]. apply IHm. lia.
Qed.

(** [parse] gives the result of the parser run with any larger amount of
    fuel: the bound it starts from never cuts a parse short. *)
Lemma parse_fuel s extra :
  parse_value (2 * List.length s + 2 + extra) s
  = parse_value (2 * List.length s + 2) s.
Proof.
  symmetry.
  apply (parse_value_stable (2 * List.length s + 2)
           (2 * List.length s + 2 + extra)); lia.
Qed.

(** [JSON.parse] on a few texts. *)
Example parse_array :
  parse (str " [1, -2.5e+3, true, null, [], {}] ")
  = Some (JArray [JNumber (str "1"); JNumber (str "-2.5e+3"); JBool true;
                  JNull; JArray []; JObject []]).
Proof. vm_compute. reflexivity. Qed.

Example parse_rejects_leading_zero : parse (str "01") = None.
Proof. vm_compute. reflexivity. Qed.

Example parse_rejects_trailing_comma : parse (str "[1,]") = None.
Proof. vm_compute. reflexivity. Qed.

Example parse_rejects_trailing_text : parse (str "{} x") = None.
Proof. vm_compute. reflexivity. Qed.

(* ===================================================================== *)
(** * Facts about runs                                                   *)
(* ===================================================================== *)

Lemma exec_app ops1 ops2 a : exec (ops1 ++ ops2) a = exec ops2 (exec ops1 a).
Proof. apply fold_left_app. Qed.

Lemma always_prefix Q ops : forall a k,
  always Q ops a -> Q (exec (firstn k ops) a).
Proof.
  induction ops as [|o r IH]; intros a k H.
  - destruct k; apply H.
  - destruct k as [|k]; [apply H|]. simpl. apply IH, H.
Qed.

Lemma run_reachable P es : forall s s',
  reachable P s -> allowed P es s = true -> run es s = Some s' ->
  reachable P s'.
Proof.
  induction es as [|e r IH]; simpl; intros s s' Hs Hal Hrun.
  - injection Hrun as <-. exact Hs.
  - apply andb_prop in Hal as [HP Hal].
    destruct (step e s) as [s1|] eqn:E; [|discriminate].
    apply (IH s1 s'); auto. eapply reach_step; eassumption.
Qed.

Lemma after_reachable P es :
  allowed P es (boot true 0) = true ->
  run es (boot true 0) <> None ->
  reachable P (after es).
Proof.
  intros Hal Hrun. unfold after.
  destruct (run es (boot true 0)) as [s|] eqn:E; [|congruence].
  eapply run_reachable; [apply reach_boot|exact Hal|exact E].
Qed.

Lemma reachable_any P s : reachable P s -> reachable anyClick s.
Proof.
  induction 1 as [sup now|s e s' _ IH _ Hstep].
  - constructor.
  - eapply reach_step; [exact IH|reflexivity|exact Hstep].
Qed.

Lemma remove_nth_In {A} (x : A) : forall i l, In x (remove_nth i l) -> In x l.
Proof.
  induction i as [|i IH]; intros [|y l]; simpl; auto.
  intros [->|H]; auto.
Qed.

Lemma filter_remove_nth {A} (f : A -> bool) : forall i l x,
  nth_error l i = Some x ->
  List.length (filter f l) =
  ((if f x then 1 else 0) + List.length (filter f (remove_nth i l)))%nat.
Proof.
  induction i as [|i IH]; intros [|y l] x; simpl; try discriminate.
  - intros [= ->]. destruct (f x); reflexivity.
  - intros H. specialize (IH l x H).
    destruct (f y), (f x); simpl in *; lia.
Qed.

Lemma filter_none {A} (f : A -> bool) l :
  List.length (filter f l) = 0%nat <-> existsb f l = false.
Proof.
  induction l as [|x l IH]; simpl; [tauto|].
  destruct (f x); simpl; [split; discriminate|exact IH].
Qed.

(** Every scenario is a run of the event loop. *)
Example scenarios_run :
  run heard (boot true 0) <> None
  /\ run heardNothing (boot true 0) <> None
  /\ run oneTurn (boot true 0) <> None
  /\ run reported (boot true 0) <> None
  /\ run (reported ++ heard) (boot true 0) <> None
  /\ run twoTurns (boot true 0) <> None
  /\ run overlappingStarts (boot true 0) <> None.
Proof. repeat split; vm_compute; discriminate. Qed.

(* ===================================================================== *)
(** * Listening and processing                                           *)
(* ===================================================================== *)

Lemma serial_boot supported now : serial (boot supported now).
Proof.
  unfold serial, waiting. destruct supported; simpl; repeat split;
    try lia; discriminate.
Qed.

Ltac open_event H :=
  unfold react in H;
  repeat match type of H with
         | (if ?c then _ else _) = _ =>
             let E := fresh "G" in destruct c eqn:E; [|try discriminate H]
         | match nth_error ?l ?i with _ => _ end = _ =>
             let E := fresh "N" in
             destruct (nth_error l i) as [[| |]|] eqn:E; try discriminate H
         end;
  try (injection H as <- <-).

Ltac flags :=
  repeat match goal with
         | H : negb _ = true |- _ => apply negb_true_iff in H
         | H : _ && _ = true |- _ => apply andb_prop in H as [? ?]
         | H : _ || _ = false |- _ => apply orb_false_elim in H as [? ?]
         | H : existsb isUserMedia _ = false |- _ => apply filter_none in H
         end.

Lemma serial_step s e s' :
  serial s -> oneStartAtATime s e = true -> step e s = Some s' -> serial s'.
Proof.
  intros (Hw & Hl & Hp) Hpol Hstep. unfold step in Hstep.
  destruct (react e s) as [[ops rest]|] eqn:R; [|discriminate].
  injection Hstep as <-.
  destruct e; open_event R.
  all: unfold serial, waiting in *; simpl in *.
  all: rewrite ?filter_app, ?length_app.
  - (* Start Talking *)
    unfold startEnabled in G. flags. simpl.
    intuition (try lia; try congruence).
  - (* Stop & Send *)
    unfold stopEnabled in G. specialize (Hl G).
    unfold stopListeningAndSend_click.
    destruct (recognitionRef (app s)); simpl;
      [destruct (falsy _); simpl|];
      intuition (try lia; try congruence).
  - (* Performance Report *)
    unfold handleEvaluate_click. destruct (find _ _); simpl;
      intuition (try lia; try congruence).
  - (* Close Analysis *)
    simpl. intuition (try lia; try congruence).
  - (* permission settled *)
    pose proof (filter_remove_nth isUserMedia _ _ _ N) as F; simpl in F.
    destruct o as [[name|]|name]; simpl;
      try destruct (recognitionRef (app s)); simpl;
      intuition (try lia; try congruence).
  - (* reply settled *)
    pose proof (filter_remove_nth isUserMedia _ _ _ N) as F; simpl in F.
    destruct (getGeminiChatResponse _ _); simpl;
      intuition (try lia; try congruence).
  - (* evaluation settled *)
    pose proof (filter_remove_nth isUserMedia _ _ _ N) as F; simpl in F.
    destruct (evaluateSpeaking _ _); simpl;
      intuition (try lia; try congruence).
  - simpl. intuition (try lia; try congruence).
  - simpl. intuition (try lia; try congruence).
  - simpl. intuition (try lia; try congruence).
Qed.

Lemma serial_reachable s : reachable oneStartAtATime s -> serial s.
Proof.
  induction 1 as [sup now|s e s' _ IH HP Hstep].
  - apply serial_boot.
  - exact (serial_step s e s' IH HP Hstep).
Qed.

Lemma serial_exclusive s : serial s -> exclusive (app s).
Proof.
  intros (_ & _ & Hp). unfold exclusive.
  destruct (isProcessing (speechState (app s))).
  - destruct Hp as [-> _]; reflexivity.
  - apply andb_false_r.
Qed.

(** Inside a handler too: no operation of a handler makes both flags
    true, when the handler starts from a [serial] session. *)
Lemma serial_within s e ops rest :
  serial s -> oneStartAtATime s e = true -> react e s = Some (ops, rest) ->
  always exclusive ops (app s).
Proof.
  intros Hs Hpol R.
  pose proof (serial_exclusive s Hs) as Hx.
  destruct Hs as (Hw & Hl & Hp).
  unfold exclusive, waiting in *.
  destruct e; open_event R; simpl in *.
  - tauto.
  - unfold stopEnabled in G. specialize (Hl G).
    unfold stopListeningAndSend_click.
    destruct (recognitionRef (app s)); simpl; [|tauto].
    destruct (falsy _); simpl; tauto.
  - unfold handleEvaluate_click. destruct (find _ _); simpl; tauto.
  - tauto.
  - pose proof (filter_remove_nth isUserMedia _ _ _ N) as F; simpl in F.
    assert (Hnp : isProcessing (speechState (app s)) = false).
    { destruct (isProcessing (speechState (app s))); auto.
      destruct Hp; auto; lia. }
    rewrite Hnp in *.
    destruct o as [[name|]|name]; simpl;
      try destruct (recognitionRef (app s)); simpl;
      rewrite ?Hnp, ?andb_false_r; tauto.
  - destruct (getGeminiChatResponse _ _); simpl;
      rewrite ?andb_false_r; tauto.
  - destruct (evaluateSpeaking _ _); simpl; tauto.
  - tauto.
  - tauto.
  - tauto.
Qed.

(** X20. Whatever the interleaving of clicks, settled promises and
    recognition callbacks, as long as Start Talking is not clicked again while an
    earlier click still waits for the microphone permission,
    [isListening] and [isProcessing] are never both true: neither between
    two events nor after any single operation inside a handler. *)
Theorem exclusive_one_start_at_a_time (a : App) :
  observable oneStartAtATime a -> exclusive a.
Proof.
  intros [s Hs|s e ops rest k Hs HP R].
  - apply serial_exclusive, serial_reachable, Hs.
  - apply always_prefix.
    exact (serial_within s e ops rest (serial_reachable s Hs) HP R).
Qed.

(** A run of X20: the state while the reply to a sent utterance is
    awaited. *)
Lemma exclusive_one_start_at_a_time_witness :
  observable oneStartAtATime (app (after (heard ++ [ClickStop 10]))) /\
  exclusive (app (after (heard ++ [ClickStop 10]))).
Proof.
  assert (H : observable oneStartAtATime (app (after (heard ++ [ClickStop 10])))).
  { apply obs_between. apply after_reachable.
    - vm_compute. reflexivity.
    - vm_compute. discriminate. }
  split; [exact H|].
  exact (exclusive_one_start_at_a_time _ H).
Defined.

(** C1. [isListening] and [isProcessing] should never both be true, and
    the guards of the buttons aim at that; the code breaks it. The Start
    Talking button stays enabled while a permission request is pending,
    so two clicks leave two requests open; the first one settles, the
    user speaks and sends; the second one settles while the reply is
    awaited and sets [isListening] with [isProcessing] still set. *)
Lemma C1_overlapping_starts :
  run overlappingStarts (boot true 0) = Some (after overlappingStarts)
  /\ observable anyClick (app (after overlappingStarts))
  /\ isListening (speechState (app (after overlappingStarts))) = true
  /\ isProcessing (speechState (app (after overlappingStarts))) = true
  /\ ~ (forall a, observable anyClick a -> exclusive a).
Proof.
  assert (Hr : reachable anyClick (after overlappingStarts)).
  { apply after_reachable; vm_compute; [reflexivity|discriminate]. }
  split; [vm_compute; reflexivity|].
  split; [apply obs_between, Hr|].
  split; [vm_compute; reflexivity|].
  split; [vm_compute; reflexivity|].
  intros H. specialize (H _ (obs_between _ _ Hr)).
  vm_compute in H. discriminate H.
Qed.

(* ===================================================================== *)
(** * What every reachable session satisfies                             *)
(* ===================================================================== *)

Lemma recognitionRef_exec ops : forall a,
  recognitionRef (exec ops a) = recognitionRef a.
Proof.
  induction ops as [|o r IH]; intros a; simpl; [reflexivity|].
  unfold exec in IH. rewrite IH. destruct o; reflexivity.
Qed.

(** The Stop & Send button is only ever rendered in a browser that has a
    recognition object. *)
Lemma listening_has_recognition s :
  reachable anyClick s ->
  isListening (speechState (app s)) = true -> recognitionRef (app s) = true.
Proof.
  induction 1 as [sup now|s e s' _ IH _ Hstep].
  - destruct sup; simpl; auto.
  - unfold step in Hstep.
    destruct (react e s) as [[ops rest]|] eqn:R; [|discriminate].
    injection Hstep as <-. simpl. rewrite recognitionRef_exec.
    destruct e; open_event R; simpl; auto.
    all: repeat match goal with
         | |- context [stopListeningAndSend_click _ _] =>
             unfold stopListeningAndSend_click;
             destruct (recognitionRef (app s)); [destruct (falsy _)|]
         | |- context [handleEvaluate_click _] =>
             unfold handleEvaluate_click; destruct (find _ _)
         | |- context [startListening_settled ?o _] =>
             destruct o as [[name|]|name]; simpl;
             destruct (recognitionRef (app s))
         | |- context [getGeminiChatResponse ?f ?h] =>
             destruct (getGeminiChatResponse f h)
         | |- context [evaluateSpeaking ?f ?u] =>
             destruct (evaluateSpeaking f u)
         end; simpl; auto; discriminate.
Qed.

Lemma hasUser_app a b : hasUser (a ++ b) = hasUser a || hasUser b.
Proof. apply existsb_app. Qed.

Lemma find_last_user ms :
  match find (fun m => Role_eqb (role m) USER) (rev ms) with
  | Some m => mostRecentUser m ms
  | None => hasUser ms = false
  end.
Proof.
  induction ms as [|x l IH] using rev_ind; [reflexivity|].
  rewrite rev_app_distr; simpl.
  destruct (Role_eqb (role x) USER) eqn:E.
  - exists l, []. repeat split. destruct (role x); [reflexivity|discriminate].
  - destruct (find _ (rev l)) as [m|].
    + destruct IH as (before & later & -> & Hm & Hl).
      exists before, (later ++ [x]). repeat split; auto.
      * now rewrite <- app_assoc.
      * rewrite hasUser_app, Hl. simpl. now rewrite E.
    + rewrite hasUser_app, IH. simpl. now rewrite E.
Qed.

Lemma reportNeedsUser_reachable s : reachable anyClick s -> reportNeedsUser s.
Proof.
  induction 1 as [sup now|s e s' _ IH _ Hstep]; unfold reportNeedsUser in *.
  - destruct sup; simpl; auto.
  - unfold step in Hstep.
    destruct (react e s) as [[ops rest]|] eqn:R; [|discriminate].
    injection Hstep as <-. simpl.
    assert (Hrm : forall i u, In (Evaluation u) (remove_nth i (pending s)) ->
                              In (Evaluation u) (pending s)).
    { intros i u. apply remove_nth_In. }
    destruct e; open_event R; simpl.
    + intros H; destruct (IH H) as [He Hn]; split; auto.
      intros u Hin. apply in_app_or in Hin as [Hin|[Hin|[]]];
        [exact (Hn u Hin)|discriminate].
    + unfold stopListeningAndSend_click.
      destruct (recognitionRef (app s)); simpl.
      * destruct (falsy _); simpl.
        -- intros H; destruct (IH H) as [He Hn]; split; auto.
           intros u Hin. rewrite app_nil_r in Hin. exact (Hn u Hin).
        -- rewrite hasUser_app. simpl. rewrite orb_true_r. discriminate.
      * intros H; destruct (IH H) as [He Hn]; split; auto.
        intros u Hin. rewrite app_nil_r in Hin. exact (Hn u Hin).
    + unfold handleEvaluate_click.
      pose proof (find_last_user (messages (app s))) as F.
      destruct (find _ _) as [m|]; simpl.
      * destruct F as (before & later & -> & Hm & _).
        rewrite hasUser_app. simpl. rewrite Hm. simpl.
        rewrite orb_true_r. discriminate.
      * intros H; destruct (IH H) as [He Hn]; split; auto.
        intros u Hin. rewrite app_nil_r in Hin. exact (Hn u Hin).
    + intros H; destruct (IH H) as [He Hn]; split; auto.
      intros u Hin. rewrite app_nil_r in Hin. exact (Hn u Hin).
    + assert (Hsame : forall ops0,
                ops0 = startListening_settled o (app s) ->
                messages (exec ops0 (app s)) = messages (app s) /\
                evaluation (exec ops0 (app s)) = evaluation (app s) /\
                awaits ops0 = []).
      { intros ops0 ->. destruct o as [[name|]|name]; simpl;
          try destruct (recognitionRef (app s)); simpl; auto. }
      destruct (Hsame _ eq_refl) as (-> & -> & ->).
      intros H; destruct (IH H) as [He Hn]; split; auto.
      intros u Hin. rewrite app_nil_r in Hin. exact (Hn u (Hrm _ _ Hin)).
    + destruct (getGeminiChatResponse _ _); simpl.
      * rewrite hasUser_app. simpl. rewrite orb_false_r.
        intros H; destruct (IH H) as [He Hn]; split; auto.
        intros u Hin. rewrite app_nil_r in Hin. exact (Hn u (Hrm _ _ Hin)).
      * intros H; destruct (IH H) as [He Hn]; split; auto.
        intros u Hin. rewrite app_nil_r in Hin. exact (Hn u (Hrm _ _ Hin)).
    + intros H. destruct (IH) as [_ Hn].
      * destruct (evaluateSpeaking _ _); simpl in H; exact H.
      * exfalso. apply (Hn utterance). eapply nth_error_In; exact N.
    + intros H; destruct (IH H) as [He Hn]; split; auto.
      intros u Hin. rewrite app_nil_r in Hin. exact (Hn u Hin).
    + intros H; destruct (IH H) as [He Hn]; split; auto.
      intros u Hin. rewrite app_nil_r in Hin. exact (Hn u Hin).
    + intros H; destruct (IH H) as [He Hn]; split; auto.
      intros u Hin. rewrite app_nil_r in Hin. exact (Hn u Hin).
Qed.

(* ===================================================================== *)
(** * Stop & Send                                                        *)
(* ===================================================================== *)

(** The message a click at [now] commits from the state [c]. *)
Lemma stop_click_commits c now :
  recognitionRef c = true ->
  falsy (trim (transcript (speechState c))) = false ->
  stopListeningAndSend_click now c =
  [Do RecognitionStop;
   SetSpeechState (fun prev => with_isListening false prev);
   SetMessages (fun _ => messages c ++ [userMessageOf c now]);
   SetSpeechState (fun prev => with_transcript [] (with_isProcessing true prev));
   SetEvaluation null;
   Await (Chat (messages c ++ [userMessageOf c now]))].
Proof.
  intros Hr Hf. unfold stopListeningAndSend_click. now rewrite Hr, Hf.
Qed.

Lemma stop_click_rejects c now :
  recognitionRef c = true ->
  falsy (trim (transcript (speechState c))) = true ->
  stopListeningAndSend_click now c =
  [Do RecognitionStop;
   SetSpeechState (fun prev => with_isListening false prev);
   SetSpeechState (fun prev => with_error (Some NOTHING_HEARD) prev)].
Proof.
  intros Hr Hf. unfold stopListeningAndSend_click. now rewrite Hr, Hf.
Qed.

(** C7. A Stop & Send click with an empty or white-space-only transcript
    leaves [messages] as it was, through the whole handler, awaits no call
    (so the conversation client is not invoked), and sets the "didn't hear
    anything" error. *)
Theorem C7_nothing_heard
    (generateContent : Request -> option Response)
    (s : Session) (now now' : Z) :
  reachable anyClick s ->
  stopEnabled (app s) = true ->
  whitespaceOnly (transcript (speechState (app s))) = true ->
  always (fun a => messages a = messages (app s))
         (stopListeningAndSend generateContent now now' (app s)) (app s)
  /\ awaits (stopListeningAndSend generateContent now now' (app s)) = []
  /\ error (speechState
        (exec (stopListeningAndSend generateContent now now' (app s)) (app s)))
     = Some NOTHING_HEARD.
Proof.
  intros Hs Hstop Hw.
  pose proof (listening_has_recognition s Hs Hstop) as Hr.
  apply trim_nil_iff in Hw.
  unfold stopListeningAndSend.
  rewrite (stop_click_rejects _ now Hr) by now rewrite Hw.
  simpl. tauto.
Qed.

(** A run of C7: only white space was recognised. *)
Lemma C7_nothing_heard_witness :
  reachable anyClick (after heardNothing)
  /\ stopEnabled (app (after heardNothing)) = true
  /\ whitespaceOnly (transcript (speechState (app (after heardNothing)))) = true
  /\ always (fun a => messages a = messages (app (after heardNothing)))
        (stopListeningAndSend (answering (str "Hi there")) 10 20
           (app (after heardNothing)))
        (app (after heardNothing))
  /\ awaits (stopListeningAndSend (answering (str "Hi there")) 10 20
               (app (after heardNothing))) = []
  /\ error (speechState
        (exec (stopListeningAndSend (answering (str "Hi there")) 10 20
                 (app (after heardNothing)))
              (app (after heardNothing))))
     = Some NOTHING_HEARD.
Proof.
  assert (Hr : reachable anyClick (after heardNothing)).
  { apply after_reachable; vm_compute; [reflexivity|discriminate]. }
  assert (He : stopEnabled (app (after heardNothing)) = true)
    by (vm_compute; reflexivity).
  assert (Hw : whitespaceOnly
                 (transcript (speechState (app (after heardNothing)))) = true)
    by (vm_compute; reflexivity).
  split; [exact Hr|]. split; [exact He|]. split; [exact Hw|].
  exact (C7_nothing_heard (answering (str "Hi there")) (after heardNothing)
           10 20 Hr He Hw).
Defined.

(** C10. The USER message a Stop & Send click appends carries the trimmed
    transcript: the captured transcript is some white space, then the
    content, then some white space, and the content neither starts nor
    ends with white space. *)
Theorem C10_content_is_trimmed (s : Session) (now : Z) :
  reachable anyClick s ->
  stopEnabled (app s) = true ->
  falsy (trim (transcript (speechState (app s)))) = false ->
  exists m,
    messages (exec (stopListeningAndSend_click now (app s)) (app s))
    = messages (app s) ++ [m]
    /\ role m = USER
    /\ content m = trim (transcript (speechState (app s)))
    /\ exists l r,
         transcript (speechState (app s)) = l ++ content m ++ r
         /\ whitespaceOnly l = true /\ whitespaceOnly r = true
         /\ tight (content m).
Proof.
  intros Hs Hstop Hf.
  pose proof (listening_has_recognition s Hs Hstop) as Hr.
  rewrite (stop_click_commits _ now Hr Hf). simpl.
  exists (userMessageOf (app s) now). repeat split.
  destruct (trim_spec (transcript (speechState (app s))))
    as (l & r & H1 & H2 & H3 & H4).
  exists l, r. auto.
Qed.

(** A run of C10: " hello " is committed as "hello". *)
Lemma C10_content_is_trimmed_witness :
  reachable anyClick (after heard)
  /\ stopEnabled (app (after heard)) = true
  /\ transcript (speechState (app (after heard))) = str " hello "
  /\ exists m,
       messages (exec (stopListeningAndSend_click 10 (app (after heard)))
                      (app (after heard)))
       = messages (app (after heard)) ++ [m]
       /\ role m = USER
       /\ content m = str "hello"
       /\ exists l r,
            str " hello " = l ++ content m ++ r
            /\ whitespaceOnly l = true /\ whitespaceOnly r = true
            /\ tight (content m).
Proof.
  assert (Hr : reachable anyClick (after heard)).
  { apply after_reachable; vm_compute; [reflexivity|discriminate]. }
  assert (He : stopEnabled (app (after heard)) = true)
    by (vm_compute; reflexivity).
  split; [exact Hr|]. split; [exact He|]. split; [vm_compute; reflexivity|].
  apply (C10_content_is_trimmed (after heard) 10 Hr He).
  vm_compute. reflexivity.
Defined.

(* ===================================================================== *)
(** * Performance Report                                                 *)
(* ===================================================================== *)

Lemma report_click_without_user c :
  hasUser (messages c) = false ->
  handleEvaluate_click c =
  [SetSpeechState (fun prev => with_error (Some NOT_SPOKEN_YET) prev)].
Proof.
  intros H. unfold handleEvaluate_click.
  pose proof (find_last_user (messages c)) as F.
  destruct (find _ _) as [m|]; [|reflexivity].
  destruct F as (before & later & E & Hm & _).
  rewrite E, hasUser_app in H. simpl in H. rewrite Hm in H. simpl in H.
  rewrite orb_true_r in H. discriminate.
Qed.

Lemma report_click_with_user c :
  hasUser (messages c) = true ->
  exists m,
    mostRecentUser m (messages c) /\
    handleEvaluate_click c =
    [SetIsEvaluating true;
     SetSpeechState (fun prev => with_error None prev);
     Await (Evaluation (content m))].
Proof.
  intros H. unfold handleEvaluate_click.
  pose proof (find_last_user (messages c)) as F.
  destruct (find _ _) as [m|]; [|congruence].
  exists m. auto.
Qed.

(** C3. A Performance Report request on a history without USER message
    leaves the stored evaluation absent, sets the "say something first"
    error and awaits no call. On a history with a USER message, the one
    call awaited is the evaluation of the content of the most recent USER
    message: the one no USER message follows. *)
Theorem C3_report_target
    (generateContent : Request -> option Response) (s : Session) :
  reachable anyClick s ->
  (hasUser (messages (app s)) = false ->
   evaluation (exec (handleEvaluate generateContent (app s)) (app s)) = null
   /\ error (speechState (exec (handleEvaluate generateContent (app s)) (app s)))
      = Some NOT_SPOKEN_YET
   /\ awaits (handleEvaluate generateContent (app s)) = [])
  /\
  (hasUser (messages (app s)) = true ->
   exists m,
     mostRecentUser m (messages (app s))
     /\ awaits (handleEvaluate_click (app s)) = [Evaluation (content m)]).
Proof.
  intros Hs. split; intros H.
  - destruct (reportNeedsUser_reachable s Hs H) as [He _].
    unfold handleEvaluate.
    rewrite (report_click_without_user _ H). simpl. auto.
  - destruct (report_click_with_user _ H) as (m & Hm & ->).
    exists m. split; [exact Hm|reflexivity].
Qed.

(** C5, as amended. When a Performance Report request calls the
    evaluation client, a successful call stores the returned result as
    the current evaluation; a failed call leaves the stored evaluation as
    it was and sets the evaluation error. Either way [isEvaluating] is
    false at the end. *)
Theorem C5_report_stored_or_kept
    (generateContent : Request -> option Response)
    (c : App) (utterance : jsstring) :
  awaits (handleEvaluate_click c) = [Evaluation utterance] ->
  (forall result,
     evaluateSpeaking generateContent utterance = Ok result ->
     evaluation (exec (handleEvaluate generateContent c) c) = result)
  /\
  (forall message,
     evaluateSpeaking generateContent utterance = Err message ->
     evaluation (exec (handleEvaluate generateContent c) c) = evaluation c
     /\ error (speechState (exec (handleEvaluate generateContent c) c))
        = Some EVALUATION_FAILED)
  /\ isEvaluating (exec (handleEvaluate generateContent c) c) = false.
Proof.
  intros Haw. unfold handleEvaluate. rewrite Haw.
  unfold handleEvaluate_click in *.
  destruct (find _ _) as [m|]; simpl in Haw; [|discriminate].
  injection Haw as <-. simpl. rewrite app_nil_r.
  destruct (evaluateSpeaking generateContent (content m)) as [r|msg]; simpl;
    repeat split; intros; try congruence; auto.
Qed.

(** A run of C3: after two turns the report is asked on the second
    utterance. *)
Lemma C3_report_target_witness :
  reachable anyClick (after twoTurns)
  /\ hasUser (messages (app (after twoTurns))) = true
  /\ awaits (handleEvaluate_click (app (after twoTurns)))
     = [Evaluation (str "I go to school yesterday")]
  /\ exists m,
       mostRecentUser m (messages (app (after twoTurns)))
       /\ awaits (handleEvaluate_click (app (after twoTurns)))
          = [Evaluation (content m)].
Proof.
  assert (Hr : reachable anyClick (after twoTurns)).
  { apply after_reachable; vm_compute; [reflexivity|discriminate]. }
  split; [exact Hr|].
  split; [vm_compute; reflexivity|].
  split; [vm_compute; reflexivity|].
  apply (proj2 (C3_report_target unreachable (after twoTurns) Hr)).
  vm_compute. reflexivity.
Defined.

(** Runs of the amended C5 after one turn: the report on "hello" arrives
    and is stored; or the service cannot be reached, the evaluation stays
    what it was and the error is set. *)
Lemma C5_report_stored_witness :
  awaits (handleEvaluate_click (app (after oneTurn)))
  = [Evaluation (str "hello")]
  /\ (evaluateSpeaking (answering threeTips) (str "hello") = Ok threeTipsResult
      /\ evaluation (exec (handleEvaluate (answering threeTips)
                             (app (after oneTurn)))
                          (app (after oneTurn))) = threeTipsResult)
  /\ (evaluateSpeaking unreachable (str "hello") = Err EVALUATION_ERROR
      /\ evaluation (exec (handleEvaluate unreachable (app (after oneTurn)))
                          (app (after oneTurn)))
         = evaluation (app (after oneTurn))
      /\ error (speechState
                  (exec (handleEvaluate unreachable (app (after oneTurn)))
                        (app (after oneTurn))))
         = Some EVALUATION_FAILED)
  /\ isEvaluating (exec (handleEvaluate (answering threeTips)
                           (app (after oneTurn)))
                        (app (after oneTurn))) = false.
Proof.
  assert (Haw : awaits (handleEvaluate_click (app (after oneTurn)))
                = [Evaluation (str "hello")])
    by (vm_compute; reflexivity).
  assert (Hok : evaluateSpeaking (answering threeTips) (str "hello")
                = Ok threeTipsResult)
    by (vm_compute; reflexivity).
  assert (Herr : evaluateSpeaking unreachable (str "hello")
                 = Err EVALUATION_ERROR)
    by reflexivity.
  split; [exact Haw|]. split; [|split].
  - split; [exact Hok|].
    exact (proj1 (C5_report_stored_or_kept (answering threeTips) _ _ Haw)
             _ Hok).
  - split; [exact Herr|].
    exact (proj1 (proj2 (C5_report_stored_or_kept unreachable _ _ Haw))
             _ Herr).
  - exact (proj2 (proj2 (C5_report_stored_or_kept (answering threeTips)
                           _ _ Haw))).
Defined.

(** C5, as stated, fails on its failure half. With a report on display, a
    second Performance Report request whose call fails leaves that report
    in place. *)
Lemma C5_failure_keeps_report :
  run reported (boot true 0) = Some (after reported)
  /\ reachable anyClick (after reported)
  /\ reportEnabled (app (after reported)) = true
  /\ awaits (handleEvaluate_click (app (after reported)))
     = [Evaluation (str "hello")]
  /\ evaluateSpeaking unreachable (str "hello") = Err EVALUATION_ERROR
  /\ evaluation (exec (handleEvaluate unreachable (app (after reported)))
                      (app (after reported))) = threeTipsResult
  /\ threeTipsResult <> null.
Proof.
  split; [vm_compute; reflexivity|].
  split; [apply after_reachable; vm_compute; [reflexivity|discriminate]|].
  repeat split; try (vm_compute; reflexivity).
  discriminate.
Qed.

(* ===================================================================== *)
(** * Start Talking and the stored evaluation                            *)
(* ===================================================================== *)

(** C4, as amended. Start Talking leaves the stored evaluation as it is,
    however the permission request turns out; it is the Stop & Send click
    committing an utterance that clears it, before the reply is
    awaited. *)
Theorem C4_evaluation_cleared_on_send
    (o : MediaOutcome) (c : App) (now : Z) :
  evaluation (exec (startListening o c) c) = evaluation c
  /\ (recognitionRef c = true ->
      falsy (trim (transcript (speechState c))) = false ->
      evaluation (exec (stopListeningAndSend_click now c) c) = null).
Proof.
  split.
  - unfold startListening. rewrite exec_app.
    destruct o as [[name|]|name]; simpl;
      try destruct (recognitionRef c); reflexivity.
  - intros Hr Hf. rewrite (stop_click_commits c now Hr Hf). reflexivity.
Qed.

(** A run of the amended C4: with a report stored, Start Talking keeps
    it, and sending the next utterance clears it. *)
Lemma C4_evaluation_cleared_witness :
  evaluation (exec (startListening (Granted None) (app (after reported)))
                   (app (after reported)))
  = evaluation (app (after reported))
  /\ recognitionRef (app (after (reported ++ heard))) = true
  /\ falsy (trim (transcript (speechState (app (after (reported ++ heard))))))
     = false
  /\ evaluation (app (after (reported ++ heard))) <> null
  /\ evaluation (exec (stopListeningAndSend_click 50
                         (app (after (reported ++ heard))))
                      (app (after (reported ++ heard)))) = null.
Proof.
  split.
  - apply (C4_evaluation_cleared_on_send (Granted None) (app (after reported)) 0).
  - assert (Hr : recognitionRef (app (after (reported ++ heard))) = true)
      by (vm_compute; reflexivity).
    assert (Hf : falsy (trim (transcript
                   (speechState (app (after (reported ++ heard)))))) = false)
      by (vm_compute; reflexivity).
    split; [exact Hr|]. split; [exact Hf|].
    split; [vm_compute; discriminate|].
    exact (proj2 (C4_evaluation_cleared_on_send (Granted None)
                    (app (after (reported ++ heard))) 50) Hr Hf).
Defined.

(** C4, as stated, fails. With a report stored, a Start Talking action
    that is granted the microphone ends with the report still stored. *)
Lemma C4_start_keeps_report :
  run reported (boot true 0) = Some (after reported)
  /\ reachable anyClick (after reported)
  /\ startEnabled (app (after reported)) = true
  /\ evaluation (app (after reported)) = threeTipsResult
  /\ evaluation (exec (startListening (Granted None) (app (after reported)))
                      (app (after reported))) = threeTipsResult
  /\ threeTipsResult <> null.
Proof.
  split; [vm_compute; reflexivity|].
  split; [apply after_reachable; vm_compute; [reflexivity|discriminate]|].
  repeat split; try (vm_compute; reflexivity).
  discriminate.
Qed.

(* ===================================================================== *)
(** * The two clients                                                    *)
(* ===================================================================== *)

(** C8. For every history: when the remote service responds,
    [getGeminiChatResponse] succeeds with the text of the response if
    there is one and it is not empty, and with the fixed placeholder if
    the body is missing or empty; and whenever it succeeds, what it
    returns is not the empty string. *)
Theorem C8_reply_or_fallback
    (generateContent : Request -> option Response) (history : list Message) :
  (forall response,
     generateContent (chatRequest history) = Some response ->
     exists reply,
       getGeminiChatResponse generateContent history = Ok reply
       /\ (forall t, text response = Some t -> t <> [] -> reply = t)
       /\ (text response = None \/ text response = Some [] ->
           reply = CHAT_FALLBACK))
  /\ (forall reply,
        getGeminiChatResponse generateContent history = Ok reply ->
        reply <> []).
Proof.
  unfold getGeminiChatResponse. split.
  - intros response H. rewrite H.
    eexists. split; [reflexivity|].
    destruct (text response) as [[|c t]|]; simpl.
    + split; [|reflexivity]. intros t [= <-] Ht. congruence.
    + split.
      * intros t' [= <-] _. reflexivity.
      * intros [H1|H1]; discriminate.
    + split; [|reflexivity]. intros t H1. discriminate.
  - intros reply H.
    destruct (generateContent (chatRequest history)) as [response|];
      [|discriminate].
    injection H as <-.
    destruct (text response) as [[|c t]|]; simpl; discriminate.
Qed.

(** Runs of C8: a reply with a text, and a reply with an empty body. *)
Lemma C8_reply_or_fallback_witness :
  (answering (str "Hi there") (chatRequest [])
   = Some {| text := Some (str "Hi there") |}
   /\ getGeminiChatResponse (answering (str "Hi there")) []
      = Ok (str "Hi there")
   /\ str "Hi there" <> [])
  /\ (silent (chatRequest []) = Some {| text := None |}
      /\ getGeminiChatResponse silent [] = Ok CHAT_FALLBACK
      /\ CHAT_FALLBACK <> []).
Proof.
  split.
  - assert (H : answering (str "Hi there") (chatRequest [])
                = Some {| text := Some (str "Hi there") |}) by reflexivity.
    destruct (C8_reply_or_fallback (answering (str "Hi there")) [])
      as [Hresp Hne].
    destruct (Hresp _ H) as (reply & Hok & Htext & _).
    assert (E : reply = str "Hi there")
      by (apply Htext; [reflexivity|discriminate]).
    rewrite E in Hok.
    split; [exact H|]. split; [exact Hok|]. exact (Hne _ Hok).
  - assert (H : silent (chatRequest []) = Some {| text := None |})
      by reflexivity.
    destruct (C8_reply_or_fallback silent []) as [Hresp Hne].
    destruct (Hresp _ H) as (reply & Hok & _ & Hfb).
    assert (E : reply = CHAT_FALLBACK) by (apply Hfb; left; reflexivity).
    rewrite E in Hok.
    split; [exact H|]. split; [exact Hok|]. exact (Hne _ Hok).
Defined.

(** C6, as amended. The result of a successful [evaluateSpeaking] is the
    value [JSON.parse] reads from the trimmed response text, unchecked.
    When that value has the shape of the response schema, its [tips] is
    an array of strings; nothing fixes the number of them. *)
Theorem C6_tips_are_strings
    (generateContent : Request -> option Response)
    (utterance : jsstring) (result : EvaluationResult) :
  evaluateSpeaking generateContent utterance = Ok result ->
  (exists t,
     generateContent (evaluationRequest utterance) = Some {| text := Some t |}
     /\ parse (trim t) = Some result)
  /\ (conforms evaluationSchema result = true ->
      exists l, tips result = Some (JArray l) /\ forallb isString l = true).
Proof.
  unfold evaluateSpeaking. intros H.
  destruct (generateContent _) as [[[t|]]|]; simpl in H; try discriminate.
  destruct (parse (trim t)) as [v|] eqn:P; [|discriminate].
  injection H as <-. split; [exists t; auto|].
  intros Hc. destruct v as [| | | | |ms]; try (cbn in Hc; discriminate Hc).
  unfold tips, get. cbn in Hc.
  repeat match type of Hc with
         | _ && _ = true => apply andb_prop in Hc as [? Hc]
         end.
  repeat match goal with
         | H : _ && _ = true |- _ => apply andb_prop in H as [? ?]
         end.
  change (str "tips") with [116; 105; 112; 115]%N.
  destruct (lookup [116; 105; 112; 115]%N ms) as [[| | | |l|]|];
    simpl in *; try discriminate.
  exists l. split; [reflexivity|].
  match goal with
  | H : forallb _ l = true |- _ => exact H
  end.
Qed.

(** The example response of the evaluation service parses into its
    fields, in order. *)
Example parse_example_response : parse threeTips = Some threeTipsResult.
Proof. vm_compute. reflexivity. Qed.

(** A run of the amended C6: the example response, with its three
    tips. *)
Lemma C6_tips_are_strings_witness :
  evaluateSpeaking (answering threeTips) (str "hello") = Ok threeTipsResult
  /\ conforms evaluationSchema threeTipsResult = true
  /\ exists l,
       tips threeTipsResult = Some (JArray l) /\ forallb isString l = true.
Proof.
  assert (Hok : evaluateSpeaking (answering threeTips) (str "hello")
                = Ok threeTipsResult)
    by (vm_compute; reflexivity).
  assert (Hc : conforms evaluationSchema threeTipsResult = true)
    by (vm_compute; reflexivity).
  split; [exact Hok|]. split; [exact Hc|].
  exact (proj2 (C6_tips_are_strings (answering threeTips) (str "hello")
                  threeTipsResult Hok) Hc).
Defined.

(** C6, as stated, fails. A response with two tips has the shape of the
    response schema; [evaluateSpeaking] succeeds on it and returns a
    result whose [tips] holds two strings. *)
Lemma C6_two_tips :
  evaluateSpeaking (answering twoTips) (str "hello") = Ok twoTipsResult
  /\ conforms evaluationSchema twoTipsResult = true
  /\ tips twoTipsResult = Some (JArray [JString (str "t1"); JString (str "t2")])
  /\ threeStrings (tips twoTipsResult) = false.
Proof. repeat split; vm_compute; reflexivity. Qed.

(* ===================================================================== *)
(** * Uninterrupted actions are runs of the event loop                   *)
(* ===================================================================== *)

Lemma nth_error_end {A} (l : list A) x :
  nth_error (l ++ [x]) (List.length l) = Some x.
Proof. induction l as [|y l IH]; simpl; auto. Qed.

Lemma remove_nth_end {A} (l : list A) x :
  remove_nth (List.length l) (l ++ [x]) = l.
Proof. induction l as [|y l IH]; simpl; congruence. Qed.

(** [startListening o] is the click followed at once by the settling of
    its own permission request. *)
Lemma startListening_in_the_loop s o :
  startEnabled (app s) = true ->
  exists s',
    run [ClickStart; MediaSettled (List.length (pending s)) o] s = Some s'
    /\ app s' = exec (startListening o (app s)) (app s)
    /\ pending s' = pending s.
Proof.
  intros H. unfold run, step, react. rewrite H. simpl.
  rewrite nth_error_end, remove_nth_end.
  eexists. split; [reflexivity|]. simpl.
  assert (Ha : awaits (startListening_settled o
                 (exec startListening_click (app s))) = []).
  { destruct o as [[name|]|name]; simpl;
      try destruct (recognitionRef (app s)); reflexivity. }
  unfold exec in Ha |- *. simpl in Ha |- *. rewrite Ha.
  split; [reflexivity|apply app_nil_r].
Qed.

(** [stopListeningAndSend] is the click followed at once, when it awaits
    a reply, by the settling of that call. *)
Lemma stopListeningAndSend_in_the_loop s now now' reply :
  stopEnabled (app s) = true ->
  exists s',
    run (ClickStop now
         :: map (fun _ => ChatSettled (List.length (pending s)) reply now')
                (awaits (stopListeningAndSend_click now (app s)))) s
    = Some s'
    /\ app s' = exec (stopListeningAndSend (fun _ => reply) now now' (app s))
                     (app s)
    /\ pending s' = pending s.
Proof.
  intros H. unfold stopListeningAndSend.
  unfold run, step at 1, react. rewrite H. simpl.
  unfold stopListeningAndSend_click.
  destruct (recognitionRef (app s)); simpl;
    [destruct (falsy _); simpl|].
  - eexists. split; [reflexivity|]. simpl. split; [reflexivity|apply app_nil_r].
  - unfold step, react. simpl. rewrite nth_error_end, remove_nth_end.
    eexists. split; [reflexivity|]. simpl.
    destruct (getGeminiChatResponse _ _); simpl;
      (split; [reflexivity|apply app_nil_r]).
  - eexists. split; [reflexivity|]. simpl. split; [reflexivity|apply app_nil_r].
Qed.

(** [handleEvaluate] is the click followed at once, when it awaits an
    evaluation, by the settling of that call. *)
Lemma handleEvaluate_in_the_loop s reply :
  reportEnabled (app s) = true ->
  exists s',
    run (ClickReport
         :: map (fun _ => EvaluationSettled (List.length (pending s)) reply)
                (awaits (handleEvaluate_click (app s)))) s
    = Some s'
    /\ app s' = exec (handleEvaluate (fun _ => reply) (app s)) (app s)
    /\ pending s' = pending s.
Proof.
  intros H. unfold handleEvaluate.
  unfold run, step at 1, react. rewrite H. simpl.
  unfold handleEvaluate_click.
  destruct (find _ _) as [m|]; simpl.
  - unfold step, react. simpl. rewrite nth_error_end, remove_nth_end.
    eexists. split; [reflexivity|]. simpl.
    destruct (evaluateSpeaking _ _); simpl;
      (split; [reflexivity|apply app_nil_r]).
  - eexists. split; [reflexivity|]. simpl. split; [reflexivity|apply app_nil_r].
Qed.

(* ===================================================================== *)
(** * More about the event loop                                          *)
(* ===================================================================== *)

Import Flight.

Ltac handler_cases s :=
  repeat match goal with
         | |- context [stopListeningAndSend_click _ _] =>
             unfold stopListeningAndSend_click;
             destruct (recognitionRef (app s)); [destruct (falsy _)|]
         | |- context [handleEvaluate_click _] =>
             unfold handleEvaluate_click; destruct (find _ _)
         | |- context [startListening_settled ?o _] =>
             destruct o as [[?|]|?]; simpl;
             destruct (recognitionRef (app s))
         | |- context [getGeminiChatResponse ?f ?h] =>
             destruct (getGeminiChatResponse f h)
         | |- context [evaluateSpeaking ?f ?u] =>
             destruct (evaluateSpeaking f u)
         end.

Lemma step_inv e s s' :
  step e s = Some s' ->
  exists ops rest,
    react e s = Some (ops, rest)
    /\ s' = {| app := exec ops (app s); pending := rest ++ awaits ops |}.
Proof.
  unfold step. destruct (react e s) as [[ops rest]|]; [|discriminate].
  intros [= <-]. eauto.
Qed.

Lemma messages_step e s s' :
  step e s = Some s' ->
  exists suffix, messages (app s') = messages (app s) ++ suffix.
Proof.
  intros H. apply step_inv in H as (ops & rest & R & ->). simpl.
  destruct e; open_event R; simpl;
    try (exists []; now rewrite app_nil_r).
  all: handler_cases s; simpl;
    try (exists []; now rewrite app_nil_r); eauto.
Qed.

(** X1. The history is append-only: whatever the events, the messages
    after a run are the messages before it followed by new ones. *)
Theorem history_append_only (es : list Event) : forall s s',
  run es s = Some s' ->
  exists suffix, messages (app s') = messages (app s) ++ suffix.
Proof.
  induction es as [|e r IH]; simpl; intros s s' H.
  - injection H as <-. exists []. now rewrite app_nil_r.
  - destruct (step e s) as [s1|] eqn:E; [|discriminate].
    destruct (messages_step _ _ _ E) as [x Hx].
    destruct (IH _ _ H) as [y Hy].
    exists (x ++ y). now rewrite Hy, Hx, app_assoc.
Qed.

Lemma history_append_only_witness :
  run twoTurns (boot true 0) = Some (after twoTurns)
  /\ exists suffix,
       messages (app (after twoTurns))
       = messages (app (boot true 0)) ++ suffix.
Proof.
  assert (H : run twoTurns (boot true 0) = Some (after twoTurns))
    by (vm_compute; reflexivity).
  split; [exact H|].
  exact (history_append_only twoTurns _ _ H).
Defined.

Lemma chats_step_other i s x :
  nth_error (pending s) i = Some x -> isChat x = false ->
  List.length (filter isChat (remove_nth i (pending s))) = chatsInFlight s.
Proof.
  intros N Hx. unfold chatsInFlight.
  rewrite (filter_remove_nth isChat _ _ _ N), Hx. reflexivity.
Qed.

(** X2. When Start Talking is clicked one at a time, [isProcessing] is set
    exactly while one conversation call is awaited: never two calls at
    once, and no call is awaited when it is false. *)
Theorem one_reply_in_flight (s : Session) :
  reachable oneStartAtATime s ->
  chatsInFlight s = if isProcessing (speechState (app s)) then 1%nat else 0%nat.
Proof.
  induction 1 as [sup now|s e s' Hs IH HP Hstep].
  - destruct sup; reflexivity.
  - pose proof (serial_reachable s Hs) as (_ & _ & Hser).
    apply step_inv in Hstep as (ops & rest & R & ->).
    unfold chatsInFlight in *. simpl.
    rewrite filter_app, length_app.
    destruct e; open_event R; simpl.
    + rewrite IH. lia.
    + unfold stopEnabled in G.
      assert (Hnp : isProcessing (speechState (app s)) = false).
      { destruct (isProcessing (speechState (app s))); auto.
        destruct Hser as [Hl _]; congruence. }
      rewrite Hnp in IH.
      handler_cases s; simpl; rewrite ?Hnp; lia.
    + handler_cases s; simpl; rewrite IH; lia.
    + rewrite IH. lia.
    + pose proof (filter_remove_nth isChat _ _ _ N) as F. simpl in F.
      handler_cases s; simpl; lia.
    + pose proof (filter_remove_nth isChat _ _ _ N) as F. simpl in F.
      destruct (isProcessing (speechState (app s))); [|lia].
      handler_cases s; simpl; lia.
    + pose proof (filter_remove_nth isChat _ _ _ N) as F. simpl in F.
      handler_cases s; simpl; lia.
    + rewrite IH. lia.
    + rewrite IH. lia.
    + rewrite IH. lia.
Qed.

Lemma one_reply_in_flight_witness :
  reachable oneStartAtATime (after (heard ++ [ClickStop 10]))
  /\ isProcessing (speechState (app (after (heard ++ [ClickStop 10])))) = true
  /\ chatsInFlight (after (heard ++ [ClickStop 10])) = 1%nat.
Proof.
  assert (H : reachable oneStartAtATime (after (heard ++ [ClickStop 10]))).
  { apply after_reachable; vm_compute; [reflexivity|discriminate]. }
  split; [exact H|]. split; [vm_compute; reflexivity|].
  exact (one_reply_in_flight _ H).
Defined.

(** X3. Whatever the interleaving, [isEvaluating] is set exactly while
    one evaluation call is awaited: evaluations never overlap. *)
Theorem one_evaluation_in_flight (s : Session) :
  reachable anyClick s ->
  evaluationsInFlight s = if isEvaluating (app s) then 1%nat else 0%nat.
Proof.
  induction 1 as [sup now|s e s' Hs IH HP Hstep].
  - destruct sup; reflexivity.
  - apply step_inv in Hstep as (ops & rest & R & ->).
    unfold evaluationsInFlight in *. simpl.
    rewrite filter_app, length_app.
    destruct e; open_event R; simpl.
    + rewrite IH. lia.
    + handler_cases s; simpl; rewrite IH; lia.
    + unfold reportEnabled in G. flags.
      match goal with
      | H : isEvaluating (app s) = false |- _ => rewrite H in IH
      end.
      handler_cases s; simpl; try lia.
      match goal with
      | H : isEvaluating (app s) = false |- _ => rewrite H
      end. lia.
    + rewrite IH. lia.
    + pose proof (filter_remove_nth isEvaluation _ _ _ N) as F. simpl in F.
      handler_cases s; simpl; lia.
    + pose proof (filter_remove_nth isEvaluation _ _ _ N) as F. simpl in F.
      handler_cases s; simpl; lia.
    + pose proof (filter_remove_nth isEvaluation _ _ _ N) as F. simpl in F.
      destruct (isEvaluating (app s)); [|lia].
      handler_cases s; simpl; lia.
    + rewrite IH. lia.
    + rewrite IH. lia.
    + rewrite IH. lia.
Qed.

Lemma one_evaluation_in_flight_witness :
  reachable anyClick (after (oneTurn ++ [ClickReport]))
  /\ isEvaluating (app (after (oneTurn ++ [ClickReport]))) = true
  /\ evaluationsInFlight (after (oneTurn ++ [ClickReport])) = 1%nat.
Proof.
  assert (H : reachable anyClick (after (oneTurn ++ [ClickReport]))).
  { apply after_reachable; vm_compute; [reflexivity|discriminate]. }
  split; [exact H|]. split; [vm_compute; reflexivity|].
  exact (one_evaluation_in_flight _ H).
Defined.

Lemma in_flight_none (f : Pending -> bool) l i x :
  List.length (filter f l) = 0%nat -> nth_error l i = Some x -> f x = false.
Proof.
  intros H N. pose proof (filter_remove_nth f _ _ _ N) as F.
  destruct (f x); [lia|reflexivity].
Qed.

Lemma idle_step now e s s' :
  recognitionRef (app s) = false -> idle now s -> step e s = Some s' ->
  recognitionRef (app s') = false /\ idle now s'.
Proof.
  intros Hr (Hm & Hev & Hl & Hp & Hie & Hc & He) Hstep.
  apply step_inv in Hstep as (ops & rest & R & ->).
  unfold idle, chatsInFlight, evaluationsInFlight in *. simpl.
  rewrite recognitionRef_exec, !filter_app, !length_app.
  split; [exact Hr|].
  destruct e; unfold react in R.
  - destruct (startEnabled (app s)); [|discriminate].
    injection R as <- <-. simpl. intuition lia.
  - unfold stopEnabled in R. rewrite Hl in R. discriminate.
  - unfold reportEnabled in R. rewrite Hm in R. simpl in R.
    rewrite !orb_true_r in R. discriminate.
  - unfold closeEnabled in R. rewrite Hev in R. discriminate.
  - destruct (nth_error (pending s) i) as [[| |]|] eqn:N; try discriminate.
    injection R as <- <-.
    pose proof (filter_remove_nth isChat _ _ _ N) as F1.
    pose proof (filter_remove_nth isEvaluation _ _ _ N) as F2.
    simpl in F1, F2.
    destruct o as [[?|]|?]; simpl; rewrite ?Hr; simpl; intuition lia.
  - destruct (nth_error (pending s) i) as [[| |]|] eqn:N; try discriminate.
    pose proof (in_flight_none isChat _ _ _ Hc N). discriminate.
  - destruct (nth_error (pending s) i) as [[| |]|] eqn:N; try discriminate.
    pose proof (in_flight_none isEvaluation _ _ _ He N). discriminate.
  - rewrite Hr in R. discriminate.
  - rewrite Hr in R. discriminate.
  - rewrite Hr in R. discriminate.
Qed.

(** X4. In a browser without speech recognition nothing can be said:
    whatever the events, the session never listens, processes or
    evaluates, the history stays the greeting alone, no report is stored
    and no remote call is ever awaited. *)
Theorem unsupported_browser_stays_idle (es : list Event) (now : Z)
    (s : Session) :
  run es (boot false now) = Some s ->
  recognitionRef (app s) = false /\ idle now s.
Proof.
  assert (G : forall s0 s1,
             recognitionRef (app s0) = false -> idle now s0 ->
             run es s0 = Some s1 ->
             recognitionRef (app s1) = false /\ idle now s1).
  { induction es as [|e r IH]; simpl; intros s0 s1 Hr Hi H.
    - injection H as <-. auto.
    - destruct (step e s0) as [s2|] eqn:E; [|discriminate].
      destruct (idle_step _ _ _ _ Hr Hi E) as [Hr2 Hi2].
      exact (IH _ _ Hr2 Hi2 H). }
  apply G; [reflexivity|]. unfold idle. simpl. tauto.
Qed.

Lemma unsupported_browser_witness :
  match run [ClickStart; MediaSettled 0 (Granted None); ClickStart;
             MediaSettled 0 (Denied (str "NotFoundError"))] (boot false 0)
  with
  | Some s => recognitionRef (app s) = false /\ idle 0 s
  | None => False
  end.
Proof.
  destruct (run [ClickStart; MediaSettled 0 (Granted None); ClickStart;
                 MediaSettled 0 (Denied (str "NotFoundError"))]
                (boot false 0)) as [s|] eqn:E.
  - exact (unsupported_browser_stays_idle _ 0 s E).
  - vm_compute in E. discriminate E.
Defined.

(** Until the user has spoken, the history is one message long and no
    conversation call is awaited. *)
Lemma first_message_is_users s :
  reachable anyClick s ->
  hasUser (messages (app s)) = false ->
  List.length (messages (app s)) = 1%nat /\ chatsInFlight s = 0%nat.
Proof.
  induction 1 as [sup now|s e s' Hs IH HP Hstep].
  - destruct sup; simpl; auto.
  - apply step_inv in Hstep as (ops & rest & R & ->).
    unfold chatsInFlight in *. simpl.
    rewrite filter_app, length_app.
    destruct e; open_event R; simpl.
    + intros H. destruct (IH H). simpl. lia.
    + handler_cases s; simpl;
        try (intros H; destruct (IH H); simpl; lia).
      rewrite hasUser_app. simpl. rewrite orb_true_r. discriminate.
    + handler_cases s; simpl; intros H; destruct (IH H); simpl; lia.
    + intros H. destruct (IH H). simpl. lia.
    + pose proof (filter_remove_nth isChat _ _ _ N) as F. simpl in F.
      handler_cases s; simpl; intros H; destruct (IH H); simpl; lia.
    + pose proof (filter_remove_nth isChat _ _ _ N) as F. simpl in F.
      handler_cases s; simpl.
      * rewrite hasUser_app. simpl. rewrite orb_false_r.
        intros H; destruct (IH H); simpl; lia.
      * intros H; destruct (IH H); simpl; lia.
    + pose proof (filter_remove_nth isChat _ _ _ N) as F. simpl in F.
      handler_cases s; simpl; intros H; destruct (IH H); simpl; lia.
    + intros H. destruct (IH H). simpl. lia.
    + intros H. destruct (IH H). simpl. lia.
    + intros H. destruct (IH H). simpl. lia.
Qed.

(** X5. Whenever the Performance Report button can be clicked, the
    history holds a USER message: the click always awaits the evaluation
    of the most recent one, and the "say something first" branch of
    [handleEvaluate] is never taken from the button. *)
Theorem report_button_has_utterance (s : Session) :
  reachable anyClick s ->
  reportEnabled (app s) = true ->
  exists m,
    mostRecentUser m (messages (app s))
    /\ handleEvaluate_click (app s)
       = [SetIsEvaluating true;
          SetSpeechState (fun prev => with_error None prev);
          Await (Evaluation (content m))].
Proof.
  intros Hs He.
  apply report_click_with_user.
  destruct (hasUser (messages (app s))) eqn:Hu; [reflexivity|].
  destruct (first_message_is_users s Hs Hu) as [Hlen _].
  unfold reportEnabled in He. rewrite Hlen in He. simpl in He.
  rewrite !orb_true_r in He. discriminate.
Qed.

Lemma report_button_has_utterance_witness :
  reachable anyClick (after twoTurns)
  /\ reportEnabled (app (after twoTurns)) = true
  /\ exists m,
       mostRecentUser m (messages (app (after twoTurns)))
       /\ handleEvaluate_click (app (after twoTurns))
          = [SetIsEvaluating true;
             SetSpeechState (fun prev => with_error None prev);
             Await (Evaluation (content m))].
Proof.
  assert (H : reachable anyClick (after twoTurns)).
  { apply after_reachable; vm_compute; [reflexivity|discriminate]. }
  assert (E : reportEnabled (app (after twoTurns)) = true)
    by (vm_compute; reflexivity).
  split; [exact H|]. split; [exact E|].
  exact (report_button_has_utterance _ H E).
Defined.

(** X6. Stop & Send cannot be clicked twice in a row: after the click the
    session is not listening, whichever branch the handler took, so the
    button is gone and a second click finds no handler. *)
Theorem stop_not_clickable_twice (s s' : Session) (now now' : Z) :
  reachable anyClick s ->
  step (ClickStop now) s = Some s' ->
  isListening (speechState (app s')) = false
  /\ step (ClickStop now') s' = None.
Proof.
  intros Hs Hstep.
  assert (Hl : isListening (speechState (app s')) = false).
  { apply step_inv in Hstep as (ops & rest & R & ->).
    unfold react in R. destruct (stopEnabled (app s)) eqn:G; [|discriminate].
    injection R as <- <-. simpl.
    pose proof (listening_has_recognition s Hs G) as Hr.
    unfold stopListeningAndSend_click. rewrite Hr.
    destruct (falsy _); reflexivity. }
  split; [exact Hl|].
  unfold step, react, stopEnabled. now rewrite Hl.
Qed.

Lemma stop_not_clickable_twice_witness :
  reachable anyClick (after heard)
  /\ step (ClickStop 10) (after heard) = Some (after (heard ++ [ClickStop 10]))
  /\ isListening (speechState (app (after (heard ++ [ClickStop 10])))) = false
  /\ step (ClickStop 11) (after (heard ++ [ClickStop 10])) = None.
Proof.
  assert (H : reachable anyClick (after heard)).
  { apply after_reachable; vm_compute; [reflexivity|discriminate]. }
  assert (E : step (ClickStop 10) (after heard)
              = Some (after (heard ++ [ClickStop 10])))
    by (vm_compute; reflexivity).
  split; [exact H|]. split; [exact E|].
  exact (stop_not_clickable_twice _ _ 10 11 H E).
Defined.

(** X7. While a reply is awaited and Start Talking is clicked one at a
    time, nothing can be started: Start Talking, Stop & Send and
    Performance Report all find no handler. *)
Theorem processing_locks_buttons (s : Session) (now : Z) :
  reachable oneStartAtATime s ->
  isProcessing (speechState (app s)) = true ->
  step ClickStart s = None
  /\ step (ClickStop now) s = None
  /\ step ClickReport s = None.
Proof.
  intros Hs Hp.
  destruct (serial_reachable s Hs) as (_ & _ & Hser).
  destruct (Hser Hp) as [Hl _].
  unfold step, react, startEnabled, stopEnabled, reportEnabled.
  rewrite Hp, Hl. simpl. rewrite ?orb_true_r, ?andb_false_r. auto.
Qed.

Lemma processing_locks_buttons_witness :
  reachable oneStartAtATime (after (heard ++ [ClickStop 10]))
  /\ isProcessing (speechState (app (after (heard ++ [ClickStop 10])))) = true
  /\ step ClickStart (after (heard ++ [ClickStop 10])) = None
  /\ step (ClickStop 11) (after (heard ++ [ClickStop 10])) = None
  /\ step ClickReport (after (heard ++ [ClickStop 10])) = None.
Proof.
  assert (H : reachable oneStartAtATime (after (heard ++ [ClickStop 10]))).
  { apply after_reachable; vm_compute; [reflexivity|discriminate]. }
  assert (P : isProcessing (speechState (app (after (heard ++ [ClickStop 10]))))
              = true) by (vm_compute; reflexivity).
  split; [exact H|]. split; [exact P|].
  exact (processing_locks_buttons _ 11 H P).
Defined.

(* ===================================================================== *)
(** * More about the handlers                                            *)
(* ===================================================================== *)





Lemma skipn_length_app {A} (a b : list A) : skipn (List.length a) (a ++ b) = b.
Proof. induction a as [|x a IH]; simpl; auto. Qed.

(** X10. A recognition result replaces the transcript by the text of the
    results from [resultIndex] on: results before that index do not
    appear in it, an index past the end gives the empty transcript, and
    nothing else of the state changes. *)
Theorem onresult_replaces_transcript
    (earlier later : list jsstring) (k : nat) (results : list jsstring)
    (c : App) :
  transcript (speechState
    (exec (onresult (List.length earlier) (earlier ++ later)) c))
  = List.concat later
  /\ (List.length results <= k ->
      transcript (speechState (exec (onresult k results) c)) = [])%nat
  /\ exec (onresult k results) c
     = withTranscript (List.concat (skipn k results)) c.
Proof.
  unfold onresult, withTranscript. simpl.
  rewrite skipn_length_app. repeat split.
  intros H. now rewrite skipn_all2.
Qed.

Lemma onresult_replaces_transcript_witness :
  transcript (speechState
    (exec (onresult 1 ([str "I go "] ++ [str "to school"]))
          (app (after heard))))
  = str "to school"
  /\ (List.length [str "I go "] <= 3)%nat
  /\ transcript (speechState
       (exec (onresult 3 [str "I go "]) (app (after heard)))) = [].
Proof.
  destruct (onresult_replaces_transcript [str "I go "] [str "to school"]
              3 [str "I go "] (app (after heard))) as (H1 & H2 & _).
  assert (L : (List.length [str "I go "] <= 3)%nat) by (simpl; lia).
  split; [exact H1|]. split; [exact L|]. exact (H2 L).
Defined.

Lemma trimStart_app t r :
  trimStart (t ++ r)
  = if whitespaceOnly t then trimStart r else trimStart t ++ r.
Proof.
  induction t as [|c t IH]; simpl; [reflexivity|].
  destruct (isWhiteSpace c); simpl; [exact IH|reflexivity].
Qed.

Lemma trimEnd_app_white t r :
  whitespaceOnly r = true -> trimEnd (t ++ r) = trimEnd t.
Proof.
  intros H. unfold trimEnd. rewrite rev_app_distr, trimStart_app.
  now rewrite whitespaceOnly_rev, H.
Qed.

(** White space around a string does not change what [trim] returns. *)
Lemma trim_padding l t r :
  whitespaceOnly l = true -> whitespaceOnly r = true ->
  trim (l ++ t ++ r) = trim t.
Proof.
  intros Hl Hr. unfold trim.
  rewrite trimStart_app, Hl, trimStart_app.
  destruct (whitespaceOnly t) eqn:Ht.
  - rewrite (trimStart_white r Hr), (trimStart_white t Ht). reflexivity.
  - now apply trimEnd_app_white.
Qed.

(** X11. White space around the transcript does not change what Stop &
    Send does: the same operations, hence the same committed message or
    the same "didn't hear anything". *)
Theorem stop_ignores_padding (l r : jsstring) (now : Z) (c : App) :
  whitespaceOnly l = true -> whitespaceOnly r = true ->
  stopListeningAndSend_click now
    (withTranscript (l ++ transcript (speechState c) ++ r) c)
  = stopListeningAndSend_click now c.
Proof.
  intros Hl Hr. unfold stopListeningAndSend_click, withTranscript. simpl.
  now rewrite (trim_padding _ _ _ Hl Hr).
Qed.

Lemma stop_ignores_padding_witness :
  whitespaceOnly (str "  ") = true
  /\ whitespaceOnly [10; 160]%N = true
  /\ stopListeningAndSend_click 10
       (withTranscript
          (str "  " ++ transcript (speechState (app (after heard)))
           ++ [10; 160]%N)
          (app (after heard)))
     = stopListeningAndSend_click 10 (app (after heard)).
Proof.
  assert (Hl : whitespaceOnly (str "  ") = true) by reflexivity.
  assert (Hr : whitespaceOnly [10; 160]%N = true) by reflexivity.
  split; [exact Hl|]. split; [exact Hr|].
  exact (stop_ignores_padding _ _ 10 (app (after heard)) Hl Hr).
Defined.


(** X12. When an awaited evaluation call settles with a falsy value
    ([null], [false], the empty string or a number whose double is zero:
    each is JSON), whatever was handled since the click, the
    continuation of [handleEvaluate] takes it for a success: it sets no
    error, [isEvaluating] is false, and the stored evaluation being
    falsy, the report section is not rendered and Close Analysis finds
    no handler. *)
Theorem falsy_report_is_silent
    (s s' : Session) (i : nat) (response : option Response)
    (utterance : jsstring) (result : EvaluationResult) :
  nth_error (pending s) i = Some (Evaluation utterance) ->
  evaluateSpeaking (fun _ => response) utterance = Ok result ->
  Falsy result ->
  step (EvaluationSettled i response) s = Some s' ->
  error (speechState (app s')) = error (speechState (app s))
  /\ isEvaluating (app s') = false
  /\ evaluation (app s') = result
  /\ closeEnabled (app s') = false
  /\ step ClickClose s' = None.
Proof.
  intros N Hok Hf Hstep.
  unfold step, react in Hstep. rewrite N, Hok in Hstep.
  injection Hstep as <-. simpl.
  assert (Ht : truthy result = false).
  { destruct Hf as [| | |l Hz]; simpl; try reflexivity. now rewrite Hz. }
  unfold step, react, closeEnabled. simpl. rewrite Ht. auto.
Qed.

Lemma falsy_report_is_silent_witness :
  nth_error (pending (after (oneTurn ++ [ClickReport]))) 0
  = Some (Evaluation (str "hello"))
  /\ evaluateSpeaking (answering (str "1e-400")) (str "hello")
     = Ok (JNumber (str "1e-400"))
  /\ Falsy (JNumber (str "1e-400"))
  /\ step (EvaluationSettled 0 (Some {| text := Some (str "1e-400") |}))
          (after (oneTurn ++ [ClickReport]))
     = Some (after (oneTurn
                    ++ [ClickReport;
                        EvaluationSettled 0
                          (Some {| text := Some (str "1e-400") |})]))
  /\ error (speechState
       (app (after (oneTurn
                    ++ [ClickReport;
                        EvaluationSettled 0
                          (Some {| text := Some (str "1e-400") |})]))))
     = None
  /\ closeEnabled
       (app (after (oneTurn
                    ++ [ClickReport;
                        EvaluationSettled 0
                          (Some {| text := Some (str "1e-400") |})])))
     = false.
Proof.
  assert (N : nth_error (pending (after (oneTurn ++ [ClickReport]))) 0
              = Some (Evaluation (str "hello")))
    by (vm_compute; reflexivity).
  assert (Hok : evaluateSpeaking (answering (str "1e-400")) (str "hello")
                = Ok (JNumber (str "1e-400")))
    by (vm_compute; reflexivity).
  assert (Hf : Falsy (JNumber (str "1e-400")))
    by (apply Falsy_zero; vm_compute; reflexivity).
  assert (Hstep :
            step (EvaluationSettled 0 (Some {| text := Some (str "1e-400") |}))
                 (after (oneTurn ++ [ClickReport]))
            = Some (after (oneTurn
                           ++ [ClickReport;
                               EvaluationSettled 0
                                 (Some {| text := Some (str "1e-400") |})])))
    by (vm_compute; reflexivity).
  destruct (falsy_report_is_silent _ _ 0 _ _ _ N Hok Hf Hstep)
    as (He & _ & _ & Hc & _).
  split; [exact N|]. split; [exact Hok|]. split; [exact Hf|].
  split; [exact Hstep|]. split; [|exact Hc].
  rewrite He. vm_compute. reflexivity.
Defined.

(* ===================================================================== *)
(** * More about the two clients                                         *)
(* ===================================================================== *)

(** X13. The conversation request carries, turn by turn and in order, the
    role and the content of each message and nothing else of it: two
    histories give the same turns exactly when their messages agree on
    role and content, whatever their timestamps. *)
Theorem chatContents_transmits_role_and_content (h h' : list Message) :
  chatContents h = chatContents h' <-> map transmitted h = map transmitted h'.
Proof.
  unfold chatContents, transmitted. revert h'.
  induction h as [|m h IH]; intros [|m' h']; simpl; split;
    try discriminate; try reflexivity.
  - intros H. injection H as Hr Hc Ht.
    apply IH in Ht. rewrite Ht, Hc. f_equal. f_equal.
    destruct (role m), (role m'); simpl in Hr;
      try reflexivity; vm_compute in Hr; discriminate Hr.
  - intros H. injection H as Hr Hc Ht.
    apply IH in Ht. now rewrite Ht, Hc, Hr.
Qed.

(** X14. [evaluateSpeaking] succeeds exactly when the service responds
    with a body whose trimmed text is JSON, and then returns the parsed
    value; every failure, whatever its cause, carries the same
    message. *)
Theorem evaluateSpeaking_outcome
    (generateContent : Request -> option Response) (utterance : jsstring) :
  (forall result,
     evaluateSpeaking generateContent utterance = Ok result <->
     exists t,
       generateContent (evaluationRequest utterance)
       = Some {| text := Some t |}
       /\ parse (trim t) = Some result)
  /\ (forall message,
        evaluateSpeaking generateContent utterance = Err message ->
        message = EVALUATION_ERROR).
Proof.
  unfold evaluateSpeaking. split.
  - intros result. split.
    + destruct (generateContent _) as [[[t|]]|]; simpl; try discriminate.
      destruct (parse (trim t)) as [v|] eqn:P; [|discriminate].
      intros [= <-]. eauto.
    + intros (t & -> & P). simpl. now rewrite P.
  - intros message.
    destruct (generateContent _) as [[[t|]]|]; simpl;
      try (intros [= <-]; reflexivity).
    destruct (parse (trim t)); [discriminate|intros [= <-]; reflexivity].
Qed.

Lemma evaluateSpeaking_outcome_witness :
  answering threeTips (evaluationRequest (str "hello"))
  = Some {| text := Some threeTips |}
  /\ parse (trim threeTips) = Some threeTipsResult
  /\ evaluateSpeaking (answering threeTips) (str "hello") = Ok threeTipsResult
  /\ evaluateSpeaking (answering (str "not json")) (str "hello")
     = Err EVALUATION_ERROR.
Proof.
  assert (H1 : answering threeTips (evaluationRequest (str "hello"))
               = Some {| text := Some threeTips |}) by reflexivity.
  assert (H2 : parse (trim threeTips) = Some threeTipsResult)
    by (vm_compute; reflexivity).
  split; [exact H1|]. split; [exact H2|]. split.
  - apply (proj1 (evaluateSpeaking_outcome (answering threeTips) (str "hello"))).
    exists threeTips. split; [exact H1|exact H2].
  - destruct (evaluateSpeaking (answering (str "not json")) (str "hello"))
      as [r|msg] eqn:E.
    + vm_compute in E. discriminate E.
    + f_equal.
      exact (proj2 (evaluateSpeaking_outcome (answering (str "not json"))
                      (str "hello")) _ E).
Defined.

(** X15. White space around the body of the evaluation response changes
    nothing, including white space [JSON.parse] alone would refuse, such
    as a byte-order mark or a no-break space. *)
Theorem evaluateSpeaking_ignores_padding
    (l t r utterance : jsstring) :
  whitespaceOnly l = true -> whitespaceOnly r = true ->
  evaluateSpeaking (answering (l ++ t ++ r)) utterance
  = evaluateSpeaking (answering t) utterance.
Proof.
  intros Hl Hr. unfold evaluateSpeaking, answering. simpl.
  now rewrite (trim_padding _ _ _ Hl Hr).
Qed.

Lemma evaluateSpeaking_ignores_padding_witness :
  whitespaceOnly [65279]%N = true
  /\ whitespaceOnly [160; 10]%N = true
  /\ parse ([65279]%N ++ threeTips ++ [160; 10]%N) = None
  /\ evaluateSpeaking (answering ([65279]%N ++ threeTips ++ [160; 10]%N))
       (str "hello")
     = evaluateSpeaking (answering threeTips) (str "hello").
Proof.
  assert (Hl : whitespaceOnly [65279]%N = true) by reflexivity.
  assert (Hr : whitespaceOnly [160; 10]%N = true) by reflexivity.
  split; [exact Hl|]. split; [exact Hr|].
  split; [vm_compute; reflexivity|].
  exact (evaluateSpeaking_ignores_padding _ threeTips _ (str "hello") Hl Hr).
Defined.

(* ===================================================================== *)
(** * Speech output                                                      *)
(* ===================================================================== *)

Import Speech.

Lemma find_none_all {A} (f : A -> bool) l :
  find f l = None -> forall x, In x l -> f x = false.
Proof.
  induction l as [|y l IH]; simpl; [intros _ x []|].
  destruct (f y) eqn:E; [discriminate|].
  intros H x [<-|Hin]; auto.
Qed.

(** X16. The voice [speakText] picks: when some voice has a locale
    starting with "en", one of the given voices with such a locale is
    picked, and it is one whose name includes "Google" whenever an
    English voice with such a name exists; when none has, no voice is
    set and the platform default speaks. *)
Theorem englishVoice_preference (voices : list Voice) :
  match englishVoice voices with
  | Some v =>
      In v voices
      /\ startsWith (str "en") (lang v) = true
      /\ (includes (str "Google") (name v) = false ->
          forall w, In w voices ->
                    startsWith (str "en") (lang w) = true ->
                    includes (str "Google") (name w) = false)
  | None =>
      forall w, In w voices -> startsWith (str "en") (lang w) = false
  end.
Proof.
  unfold englishVoice.
  destruct (find (fun v => startsWith (str "en") (lang v)
                           && includes (str "Google") (name v)) voices)
    as [v|] eqn:E1.
  - apply find_some in E1 as [Hin Hv].
    apply andb_prop in Hv as [Hen Hg].
    repeat split; auto. intros Hng. congruence.
  - pose proof (find_none_all _ _ E1) as Hno.
    destruct (find (fun v => startsWith (str "en") (lang v)) voices)
      as [v|] eqn:E2.
    + apply find_some in E2 as [Hin Hen].
      repeat split; auto. intros _ w Hw Hwen.
      specialize (Hno w Hw). cbv beta in Hno. rewrite Hwen in Hno.
      exact Hno.
    + exact (find_none_all _ _ E2).
Qed.


(* ===================================================================== *)
(** * What the history holds                                             *)
(* ===================================================================== *)

Lemma chat_reply_not_empty generateContent history reply :
  getGeminiChatResponse generateContent history = Ok reply -> reply <> [].
Proof.
  unfold getGeminiChatResponse.
  destruct (generateContent _) as [response|]; [|discriminate].
  intros [= <-]. destruct (text response) as [[|c t]|]; simpl; discriminate.
Qed.

Lemma wellFormed_step e s s' :
  Forall wellFormed (messages (app s)) ->
  step e s = Some s' ->
  Forall wellFormed (messages (app s')).
Proof.
  intros Hall Hstep.
  apply step_inv in Hstep as (ops & rest & R & ->). simpl.
  destruct e; open_event R; simpl; auto.
  - unfold stopListeningAndSend_click.
    destruct (recognitionRef (app s)); simpl; auto.
    destruct (falsy (trim (transcript (speechState (app s))))) eqn:F;
      simpl; auto.
    apply Forall_app. split; [exact Hall|].
    constructor; [|constructor]. unfold wellFormed. simpl. split.
    + intros E. rewrite E in F. discriminate.
    + intros _.
      destruct (trim_spec (transcript (speechState (app s))))
        as (l & r & _ & _ & _ & Ht). exact Ht.
  - handler_cases s; simpl; auto.
  - handler_cases s; simpl; auto.
  - destruct (getGeminiChatResponse _ _) as [answer|msg] eqn:E; simpl; auto.
    apply Forall_app. split; [exact Hall|].
    constructor; [|constructor]. unfold wellFormed. simpl. split.
    + exact (chat_reply_not_empty _ _ _ E).
    + discriminate.
  - handler_cases s; simpl; auto.
Qed.

(** X18. No message of the history is ever empty, and no USER message
    starts or ends with white space: the greeting is a fixed text, an
    utterance is committed trimmed and only when something is left, and
    an empty reply is replaced by the placeholder. *)
Theorem history_well_formed (s : Session) :
  reachable anyClick s -> Forall wellFormed (messages (app s)).
Proof.
  induction 1 as [sup now|s e s' Hs IH _ Hstep].
  - assert (H : Forall wellFormed (messages (initialState now))).
    { constructor; [|constructor]. split; [discriminate|discriminate]. }
    destruct sup; exact H.
  - exact (wellFormed_step e s s' IH Hstep).
Qed.

Lemma history_well_formed_witness :
  reachable anyClick (after twoTurns)
  /\ Forall wellFormed (messages (app (after twoTurns))).
Proof.
  assert (H : reachable anyClick (after twoTurns)).
  { apply after_reachable; vm_compute; [reflexivity|discriminate]. }
  split; [exact H|]. exact (history_well_formed _ H).
Defined.

Lemma new_chat e s s' h :
  step e s = Some s' ->
  In (Chat h) (pending s') ->
  In (Chat h) (pending s)
  \/ (h = messages (app s')
      /\ exists before m, h = before ++ [m] /\ role m = USER).
Proof.
  intros Hstep. apply step_inv in Hstep as (ops & rest & R & ->). simpl.
  intros Hin. apply in_app_or in Hin as [Hin|Hin].
  - left. destruct e; open_event R; auto; eapply remove_nth_In; exact Hin.
  - destruct e; open_event R; simpl in Hin;
      try (destruct Hin as [Hin|[]]; discriminate Hin); try contradiction.
    + revert Hin. unfold stopListeningAndSend_click.
      destruct (recognitionRef (app s)); simpl; [|intros []].
      destruct (falsy _); simpl; [intros []|].
      intros [[= <-]|[]]. right. split; [reflexivity|]. eauto.
    + revert Hin. handler_cases s; simpl; intuition discriminate.
    + revert Hin. handler_cases s; simpl; intuition discriminate.
    + revert Hin. handler_cases s; simpl; intuition discriminate.
    + revert Hin. handler_cases s; simpl; intuition discriminate.
Qed.

(** X19. Every conversation call that is awaited was given the whole
    history as it stood when the utterance was committed: its argument
    ends with a USER message and is a prefix of the current history. *)
Theorem awaited_chat_carries_history (s : Session) (h : list Message) :
  reachable anyClick s ->
  In (Chat h) (pending s) ->
  (exists later, messages (app s) = h ++ later)
  /\ exists before m, h = before ++ [m] /\ role m = USER.
Proof.
  intros Hs. revert h.
  induction Hs as [sup now|s e s' Hs IH _ Hstep]; intros h Hin.
  - destruct Hin.
  - destruct (new_chat _ _ _ _ Hstep Hin) as [Hold|[-> Hlast]].
    + destruct (IH h Hold) as [[later Hl] Hlast]. split; [|exact Hlast].
      destruct (messages_step _ _ _ Hstep) as [x Hx].
      exists (later ++ x). now rewrite Hx, Hl, app_assoc.
    + split; [exists []; now rewrite app_nil_r|exact Hlast].
Qed.

Lemma awaited_chat_carries_history_witness :
  reachable anyClick (after (heard ++ [ClickStop 10]))
  /\ In (Chat (messages (app (after (heard ++ [ClickStop 10])))))
        (pending (after (heard ++ [ClickStop 10])))
  /\ (exists later,
        messages (app (after (heard ++ [ClickStop 10])))
        = messages (app (after (heard ++ [ClickStop 10]))) ++ later)
  /\ exists before m,
       messages (app (after (heard ++ [ClickStop 10]))) = before ++ [m]
       /\ role m = USER.
Proof.
  assert (H : reachable anyClick (after (heard ++ [ClickStop 10]))).
  { apply after_reachable; vm_compute; [reflexivity|discriminate]. }
  assert (I : In (Chat (messages (app (after (heard ++ [ClickStop 10])))))
                 (pending (after (heard ++ [ClickStop 10]))))
    by (vm_compute; left; reflexivity).
  split; [exact H|]. split; [exact I|].
  exact (awaited_chat_carries_history _ _ H I).
Defined.

(** The voice picked among an American voice, a British Google voice and
    a French Google voice. *)
Example englishVoice_example :
  englishVoice
    [ {| lang := str "en-US"; name := str "Samantha" |};
      {| lang := str "fr-FR"; name := str "Google francais" |};
      {| lang := str "en-GB"; name := str "Google UK English Female" |} ]
  = Some {| lang := str "en-GB"; name := str "Google UK English Female" |}.
Proof. reflexivity. Qed.

(* ===================================================================== *)
(** * A conversation turn in the event loop                              *)
(* ===================================================================== *)

Lemma remove_nth_keeps {A} (y : A) : forall i l x,
  nth_error l i = Some x -> y <> x -> In y l -> In y (remove_nth i l).
Proof.
  induction i as [|i IH]; intros [|z l] x N Hne Hin; simpl in *;
    try discriminate.
  - injection N as ->. destruct Hin as [->|Hin]; [congruence|exact Hin].
  - destruct Hin as [->|Hin]; [left; reflexivity|right; eauto].
Qed.

(** What a Stop & Send click does when something was heard. *)
Lemma stop_click_step s s1 now :
  reachable anyClick s ->
  falsy (trim (transcript (speechState (app s)))) = false ->
  step (ClickStop now) s = Some s1 ->
  messages (app s1) = messages (app s) ++ [userMessageOf (app s) now]
  /\ transcript (speechState (app s1)) = []
  /\ isProcessing (speechState (app s1)) = true
  /\ pending s1
     = pending s ++ [Chat (messages (app s) ++ [userMessageOf (app s) now])].
Proof.
  intros Hs Hf Hstep. unfold step, react in Hstep.
  destruct (stopEnabled (app s)) eqn:G; [|discriminate].
  pose proof (listening_has_recognition s Hs G) as Hr.
  rewrite (stop_click_commits _ now Hr Hf) in Hstep.
  injection Hstep as <-. simpl. auto.
Qed.

(** An event that is not of a conversation turn leaves the history, the
    processing flag and the awaited conversation calls as they are; and
    the transcript empty if it was, unless it is a recognition result. *)
Lemma other_event_step e s s' :
  isTurn e = false ->
  step e s = Some s' ->
  messages (app s') = messages (app s)
  /\ isProcessing (speechState (app s')) = isProcessing (speechState (app s))
  /\ (forall h, In (Chat h) (pending s) -> In (Chat h) (pending s'))
  /\ (isResult e = false -> transcript (speechState (app s)) = [] ->
      transcript (speechState (app s')) = []).
Proof.
  intros Ht Hstep. apply step_inv in Hstep as (ops & rest & R & ->). simpl.
  assert (Hk : forall i x h w,
             nth_error (pending s) i = Some x -> Chat h <> x ->
             In (Chat h) (pending s) ->
             In (Chat h) (remove_nth i (pending s) ++ w)).
  { intros i x h w N Hne Hin. apply in_or_app. left.
    eapply remove_nth_keeps; eassumption. }
  destruct e; try discriminate Ht; open_event R; simpl.
  all: handler_cases s; simpl; repeat split; auto; try discriminate.
  all: intros h Hin;
    solve [ apply in_or_app; auto
          | eapply Hk; [eassumption|discriminate|exact Hin] ].
Qed.

Lemma other_events_run es : forall s s',
  noTurn es = true ->
  run es s = Some s' ->
  messages (app s') = messages (app s)
  /\ isProcessing (speechState (app s')) = isProcessing (speechState (app s))
  /\ (forall h, In (Chat h) (pending s) -> In (Chat h) (pending s'))
  /\ (noResult es = true -> transcript (speechState (app s)) = [] ->
      transcript (speechState (app s')) = []).
Proof.
  induction es as [|e r IH]; simpl; intros s s' Hq H.
  - injection H as <-. auto.
  - apply andb_prop in Hq as [He Hq]. apply negb_true_iff in He.
    destruct (step e s) as [s1|] eqn:E; [|discriminate].
    destruct (other_event_step _ _ _ He E) as (M1 & P1 & C1 & T1).
    destruct (IH _ _ Hq H) as (M2 & P2 & C2 & T2).
    repeat split; try congruence; auto.
    intros Hn Ht. apply andb_prop in Hn as [Hn1 Hn2].
    apply negb_true_iff in Hn1. auto.
Qed.

(** What the settling of a conversation call does. *)
Lemma chat_settled_step s s' i response now h :
  nth_error (pending s) i = Some (Chat h) ->
  step (ChatSettled i response now) s = Some s' ->
  app s'
  = exec (stopListeningAndSend_settled
            (getGeminiChatResponse (fun _ => response) h) now) (app s).
Proof.
  intros N Hstep. unfold step, react in Hstep. rewrite N in Hstep.
  injection Hstep as <-. reflexivity.
Qed.

(** C2, as amended. A Stop & Send click with a transcript that is not
    empty once trimmed appends the USER message and empties the
    transcript, and its conversation call is awaited from then on. When
    that call succeeds, no other Stop & Send click or conversation reply
    having been handled since the click, [messages] is the history before
    the click followed by two entries, the USER message then the
    ASSISTANT message carrying the reply; and the transcript is empty
    then if no recognition result arrived since the click. *)
Theorem C2_successful_turn_in_the_loop
    (s s1 s2 : Session) (now : Z) (es : list Event) :
  reachable anyClick s ->
  falsy (trim (transcript (speechState (app s)))) = false ->
  step (ClickStop now) s = Some s1 ->
  run es s1 = Some s2 ->
  noTurn es = true ->
  (messages (app s1) = messages (app s) ++ [userMessageOf (app s) now]
   /\ transcript (speechState (app s1)) = [])
  /\ In (Chat (messages (app s) ++ [userMessageOf (app s) now])) (pending s2)
  /\ forall i response now' reply s3,
       nth_error (pending s2) i
       = Some (Chat (messages (app s) ++ [userMessageOf (app s) now])) ->
       getGeminiChatResponse (fun _ => response)
         (messages (app s) ++ [userMessageOf (app s) now]) = Ok reply ->
       step (ChatSettled i response now') s2 = Some s3 ->
       messages (app s3)
       = messages (app s)
         ++ [userMessageOf (app s) now; aiMessageOf reply now']
       /\ (noResult es = true -> transcript (speechState (app s3)) = []).
Proof.
  intros Hs Hf Hclick Hrun Hq.
  destruct (stop_click_step _ _ _ Hs Hf Hclick) as (M1 & T1 & _ & Q1).
  destruct (other_events_run _ _ _ Hq Hrun) as (M2 & _ & C2 & T2).
  split; [auto|]. split.
  - apply C2. rewrite Q1. apply in_or_app. right. left. reflexivity.
  - intros i response now' reply s3 N Hok Hsettle.
    rewrite (chat_settled_step _ _ _ _ _ _ N Hsettle), Hok. simpl.
    rewrite M2, M1, <- app_assoc. split; [reflexivity|]. auto.
Qed.

(** A run of the amended C2: " hello " is sent, recognition ends, then
    the service answers. *)
Lemma C2_successful_turn_in_the_loop_witness :
  reachable anyClick (after heard)
  /\ step (ClickStop 10) (after heard) = Some (after (heard ++ [ClickStop 10]))
  /\ run [OnEnd] (after (heard ++ [ClickStop 10]))
     = Some (after (heard ++ [ClickStop 10; OnEnd]))
  /\ step (ChatSettled 0 (Some {| text := Some (str "Hi there") |}) 20)
          (after (heard ++ [ClickStop 10; OnEnd]))
     = Some (after (heard
                    ++ [ClickStop 10; OnEnd;
                        ChatSettled 0
                          (Some {| text := Some (str "Hi there") |}) 20]))
  /\ messages
       (app (after (heard
                    ++ [ClickStop 10; OnEnd;
                        ChatSettled 0
                          (Some {| text := Some (str "Hi there") |}) 20])))
     = messages (app (after heard))
       ++ [ {| role := USER; content := str "hello"; timestamp := 10 |};
            {| role := ASSISTANT; content := str "Hi there";
               timestamp := 20 |} ]
  /\ transcript
       (speechState
          (app (after (heard
                       ++ [ClickStop 10; OnEnd;
                           ChatSettled 0
                             (Some {| text := Some (str "Hi there") |}) 20]))))
     = [].
Proof.
  assert (Hr : reachable anyClick (after heard)).
  { apply after_reachable; vm_compute; [reflexivity|discriminate]. }
  assert (Hf : falsy (trim (transcript (speechState (app (after heard)))))
               = false) by (vm_compute; reflexivity).
  assert (Hc : step (ClickStop 10) (after heard)
               = Some (after (heard ++ [ClickStop 10])))
    by (vm_compute; reflexivity).
  assert (He : run [OnEnd] (after (heard ++ [ClickStop 10]))
               = Some (after (heard ++ [ClickStop 10; OnEnd])))
    by (vm_compute; reflexivity).
  assert (Hs : step (ChatSettled 0 (Some {| text := Some (str "Hi there") |}) 20)
                    (after (heard ++ [ClickStop 10; OnEnd]))
               = Some (after (heard
                              ++ [ClickStop 10; OnEnd;
                                  ChatSettled 0
                                    (Some {| text := Some (str "Hi there") |})
                                    20])))
    by (vm_compute; reflexivity).
  destruct (C2_successful_turn_in_the_loop _ _ _ 10 [OnEnd] Hr Hf Hc He
              eq_refl) as (_ & _ & Hturn).
  destruct (Hturn 0%nat (Some {| text := Some (str "Hi there") |}) 20%Z
              (str "Hi there") _ ltac:(vm_compute; reflexivity)
              ltac:(reflexivity) Hs) as [Hm Ht].
  split; [exact Hr|]. split; [exact Hc|]. split; [exact He|].
  split; [exact Hs|]. split; [exact Hm|]. exact (Ht eq_refl).
Defined.

(** C2, as stated, fails. A recognition result that arrives after the
    click, as results do once [stop()] is called, fills the transcript
    again: when the reply arrives the history has grown by the USER and
    the ASSISTANT message, and the transcript is not empty. *)
Lemma C2_late_result :
  run lateResult (boot true 0) = Some (after lateResult)
  /\ allowed oneStartAtATime lateResult (boot true 0) = true
  /\ reachable anyClick (after heard)
  /\ stopEnabled (app (after heard)) = true
  /\ messages (app (after lateResult))
     = messages (app (after heard))
       ++ [ {| role := USER; content := str "hello"; timestamp := 10 |};
            {| role := ASSISTANT; content := str "Hello! How are you?";
               timestamp := 20 |} ]
  /\ transcript (speechState (app (after lateResult))) = str "late words"
  /\ str "late words" <> [].
Proof.
  split; [vm_compute; reflexivity|].
  split; [vm_compute; reflexivity|].
  split; [apply after_reachable; vm_compute; [reflexivity|discriminate]|].
  repeat split; try (vm_compute; reflexivity).
  discriminate.
Qed.

(** C9. After a failed conversation call the history should hold one
    message more than before the Stop & Send click, and [isProcessing]
    should be false because nothing is awaited; the code breaks both when
    Start Talking was clicked twice. "hi" is sent at 5; the second
    permission request settles while its reply is awaited, and "again"
    is sent at 6; the call made for "hi" then fails at 7: the history
    holds two messages more than before the click at 5, and
    [isProcessing] is false while the call made for "again" is still
    awaited. *)
Lemma C9_failed_turn_after_overlapping_starts :
  run failedAfterOverlap (boot true 0) = Some (after failedAfterOverlap)
  /\ reachable anyClick (after startedTwice)
  /\ stopEnabled (app (after startedTwice)) = true
  /\ step (ClickStop 5) (after startedTwice)
     = Some (after (startedTwice ++ [ClickStop 5]))
  /\ messages (app (after (startedTwice ++ [ClickStop 5])))
     = messages (app (after startedTwice))
       ++ [ {| role := USER; content := str "hi"; timestamp := 5 |} ]
  /\ nth_error (pending (after (startedTwice
                                ++ [ClickStop 5; OnEnd;
                                    MediaSettled 0 (Granted None);
                                    OnResult 0 [str "again"];
                                    ClickStop 6]))) 0
     = Some (Chat (messages (app (after (startedTwice ++ [ClickStop 5])))))
  /\ messages (app (after failedAfterOverlap))
     = messages (app (after startedTwice))
       ++ [ {| role := USER; content := str "hi"; timestamp := 5 |};
            {| role := USER; content := str "again"; timestamp := 6 |} ]
  /\ error (speechState (app (after failedAfterOverlap)))
     = Some CONNECTION_FAILED
  /\ isProcessing (speechState (app (after failedAfterOverlap))) = false
  /\ chatsInFlight (after failedAfterOverlap) = 1%nat.
Proof.
  split; [vm_compute; reflexivity|].
  split; [apply after_reachable; vm_compute; [reflexivity|discriminate]|].
  repeat split; vm_compute; reflexivity.
Qed.

(** X21. A Stop & Send click with a transcript that is not empty once
    trimmed appends the USER message and sets [isProcessing], which stays
    set while its conversation call is awaited. When that call fails, no
    other Stop & Send click or conversation reply having been handled
    since the click, the USER message is still there, [messages] being
    one entry longer than before the click; the connection error is set
    and [isProcessing] is false again. *)
Theorem failed_turn_in_the_loop
    (s s1 s2 : Session) (now : Z) (es : list Event) :
  reachable anyClick s ->
  falsy (trim (transcript (speechState (app s)))) = false ->
  step (ClickStop now) s = Some s1 ->
  run es s1 = Some s2 ->
  noTurn es = true ->
  (messages (app s1) = messages (app s) ++ [userMessageOf (app s) now]
   /\ isProcessing (speechState (app s1)) = true)
  /\ isProcessing (speechState (app s2)) = true
  /\ In (Chat (messages (app s) ++ [userMessageOf (app s) now])) (pending s2)
  /\ forall i response now' message s3,
       nth_error (pending s2) i
       = Some (Chat (messages (app s) ++ [userMessageOf (app s) now])) ->
       getGeminiChatResponse (fun _ => response)
         (messages (app s) ++ [userMessageOf (app s) now]) = Err message ->
       step (ChatSettled i response now') s2 = Some s3 ->
       messages (app s3) = messages (app s) ++ [userMessageOf (app s) now]
       /\ error (speechState (app s3)) = Some CONNECTION_FAILED
       /\ isProcessing (speechState (app s3)) = false.
Proof.
  intros Hs Hf Hclick Hrun Hq.
  destruct (stop_click_step _ _ _ Hs Hf Hclick) as (M1 & _ & P1 & Q1).
  destruct (other_events_run _ _ _ Hq Hrun) as (M2 & P2 & C2 & _).
  split; [auto|]. split; [congruence|]. split.
  - apply C2. rewrite Q1. apply in_or_app. right. left. reflexivity.
  - intros i response now' message s3 N Herr Hsettle.
    rewrite (chat_settled_step _ _ _ _ _ _ N Hsettle), Herr. simpl.
    rewrite M2, M1. auto.
Qed.

(** A run of X21: " hello " is sent, a late result arrives, then the
    service cannot be reached. *)
Lemma failed_turn_in_the_loop_witness :
  reachable anyClick (after heard)
  /\ step (ClickStop 10) (after heard) = Some (after (heard ++ [ClickStop 10]))
  /\ run [OnResult 0 [str "late words"]] (after (heard ++ [ClickStop 10]))
     = Some (after (heard ++ [ClickStop 10; OnResult 0 [str "late words"]]))
  /\ isProcessing
       (speechState
          (app (after (heard ++ [ClickStop 10; OnResult 0 [str "late words"]]))))
     = true
  /\ step (ChatSettled 0 None 20)
          (after (heard ++ [ClickStop 10; OnResult 0 [str "late words"]]))
     = Some (after (heard
                    ++ [ClickStop 10; OnResult 0 [str "late words"];
                        ChatSettled 0 None 20]))
  /\ messages
       (app (after (heard
                    ++ [ClickStop 10; OnResult 0 [str "late words"];
                        ChatSettled 0 None 20])))
     = messages (app (after heard))
       ++ [ {| role := USER; content := str "hello"; timestamp := 10 |} ]
  /\ error
       (speechState
          (app (after (heard
                       ++ [ClickStop 10; OnResult 0 [str "late words"];
                           ChatSettled 0 None 20]))))
     = Some CONNECTION_FAILED
  /\ isProcessing
       (speechState
          (app (after (heard
                       ++ [ClickStop 10; OnResult 0 [str "late words"];
                           ChatSettled 0 None 20]))))
     = false.
Proof.
  assert (Hr : reachable anyClick (after heard)).
  { apply after_reachable; vm_compute; [reflexivity|discriminate]. }
  assert (Hf : falsy (trim (transcript (speechState (app (after heard)))))
               = false) by (vm_compute; reflexivity).
  assert (Hc : step (ClickStop 10) (after heard)
               = Some (after (heard ++ [ClickStop 10])))
    by (vm_compute; reflexivity).
  assert (He : run [OnResult 0 [str "late words"]]
                   (after (heard ++ [ClickStop 10]))
               = Some (after (heard
                              ++ [ClickStop 10; OnResult 0 [str "late words"]])))
    by (vm_compute; reflexivity).
  assert (Hs : step (ChatSettled 0 None 20)
                    (after (heard
                            ++ [ClickStop 10; OnResult 0 [str "late words"]]))
               = Some (after (heard
                              ++ [ClickStop 10; OnResult 0 [str "late words"];
                                  ChatSettled 0 None 20])))
    by (vm_compute; reflexivity).
  destruct (failed_turn_in_the_loop _ _ _ 10 [OnResult 0 [str "late words"]]
              Hr Hf Hc He eq_refl) as (_ & Hp & _ & Hturn).
  destruct (Hturn 0%nat None 20%Z CHAT_ERROR _ ltac:(vm_compute; reflexivity)
              ltac:(reflexivity) Hs) as (Hm & Herr & Hnp).
  split; [exact Hr|]. split; [exact Hc|]. split; [exact He|].
  split; [exact Hp|]. split; [exact Hs|]. split; [exact Hm|].
  split; [exact Herr|exact Hnp].
Defined.
